(** * golsptoolkit: the base protocol vocabulary (baseprotocol.go)

    A shallow embedding of the Go declarations of [baseprotocol.go]: the
    header record, the base types, the two dynamic type tests, the three
    message structs with their [json] tags, and the error-code constants.

    Go values of the empty interface [any] are modelled by the inductive
    [value]; a Go [map[string]any] is a [gmap string value], a [[]any] a
    [list value]; fixed-width integers are [Z] with their range written
    out. *)

From Stdlib Require Import ZArith String Ascii List Lia DecimalString DecimalPos DecimalZ.
From stdpp Require Import gmap strings list fin_maps sorting.

#[local] Set Warnings "-register-all".
Local Open Scope string_scope.
Local Open Scope Z_scope.

(** ** Machine integers *)

(** [Integer = int32], [UInteger = uint32], Go's [int] (64 bits on the
    platforms Go is commonly built for) and [Decimal = float64], the latter
    kept as its IEEE-754 binary64 bit pattern. *)
Definition Integer := Z.
Definition UInteger := Z.
Definition Decimal := Z.

Definition in_Integer (n : Z) : Prop := -2^31 <= n < 2^31.
Definition in_UInteger (n : Z) : Prop := 0 <= n < 2^32.
Definition in_int (n : Z) : Prop := -2^63 <= n < 2^63.
Definition in_Decimal (bits : Z) : Prop := 0 <= bits < 2^64.

Definition in_Integerb (n : Z) : bool := (-2^31 <=? n) && (n <? 2^31).

(** ** HeaderPart *)

Record HeaderPart := mkHeaderPart {
  ContentLength : Z;       (* int *)
  ContentType : string
}.

(** A [HeaderPart] is any pair whose [ContentLength] fits Go's [int]. *)
Definition wf_HeaderPart (h : HeaderPart) : Prop := in_int (ContentLength h).

(** The zero value [HeaderPart{}]. *)
Definition zero_HeaderPart : HeaderPart := mkHeaderPart 0 "".

(** The invariant the specification asks of a header. *)
Definition content_length_nonneg (h : HeaderPart) : Prop := 0 <= ContentLength h.

(** ** Dynamic values: [LSPAny = any] *)

(** The dynamic types a value of type [any] is modelled with: the eight of
    the type switches, and two that stand for every other Go type, [int]
    (what an untyped integer constant becomes in an [any]) and a channel
    (a type [encoding/json] cannot serialise). A map and a slice may be
    nil, which the type switches do not tell from an empty one and
    [encoding/json] does: [VNilObject] and [VNilArray]. An [Integer] is
    meant with its argument in [in_Integer], a [UInteger] in [in_UInteger],
    a [Decimal] in [in_Decimal], an [int] in [in_int]. *)
Inductive GoType : Type :=
  | TNil | TString | TInt32 | TUint32 | TFloat64 | TBool
  | TMapStringAny | TSliceAny | TInt | TChan.

Inductive value : Type :=
  | VNil
  | VString (s : string)
  | VInteger (n : Integer)
  | VUInteger (n : UInteger)
  | VDecimal (bits : Decimal)
  | VBool (b : bool)
  | VObject (m : gmap string value)
  | VArray (l : list value)
  | VInt (n : Z)
  | VChan
  | VNilObject
  | VNilArray.

Abbreviation LSPAny := value.
Abbreviation LSPObject := (gmap string value).
Abbreviation LSPArray := (list value).

(** The dynamic type of an interface value, what [v.(type)] switches on. *)
Definition TypeOf (v : value) : GoType :=
  match v with
  | VNil => TNil
  | VString _ => TString
  | VInteger _ => TInt32
  | VUInteger _ => TUint32
  | VDecimal _ => TFloat64
  | VBool _ => TBool
  | VObject _ => TMapStringAny
  | VArray _ => TSliceAny
  | VInt _ => TInt
  | VChan => TChan
  | VNilObject => TMapStringAny
  | VNilArray => TSliceAny
  end.

(** [IsLSPAny]: [case string, Integer, UInteger, Decimal, bool, nil,
    LSPObject, LSPArray: return true; default: return false]. *)
Definition IsLSPAny (v : value) : bool :=
  match TypeOf v with
  | TString | TInt32 | TUint32 | TFloat64 | TBool | TNil
  | TMapStringAny | TSliceAny => true
  | _ => false
  end.

(** [IsLSPArrayOrObject]: [case LSPArray, LSPObject: return true]. *)
Definition IsLSPArrayOrObject (v : value) : bool :=
  match TypeOf v with
  | TSliceAny | TMapStringAny => true
  | _ => false
  end.

(** Conjunction of a boolean test over the values of a map. *)
Definition map_forallb {A} (f : A → bool) (m : gmap string A) : bool :=
  map_fold (λ _ x acc, f x && acc) true m.

(** The StructuredValue grammar, after the specification's words:
    recursively one of string, 32-bit signed integer, 32-bit unsigned
    integer, 64-bit float, boolean, null, sequence of StructuredValue,
    mapping of string to StructuredValue. *)
Fixpoint StructuredValue (v : value) : bool :=
  match v with
  | VNil | VString _ | VInteger _ | VUInteger _ | VDecimal _ | VBool _ => true
  | VObject m => map_forallb StructuredValue m
  | VArray l => forallb StructuredValue l
  | VNilObject | VNilArray => true
  | VInt _ | VChan => false
  end.

(** The grammar applied to the outermost constructor only. *)
Inductive TopLevelLSP : value → Prop :=
  | TL_nil : TopLevelLSP VNil
  | TL_string s : TopLevelLSP (VString s)
  | TL_integer n : TopLevelLSP (VInteger n)
  | TL_uinteger n : TopLevelLSP (VUInteger n)
  | TL_decimal f : TopLevelLSP (VDecimal f)
  | TL_bool b : TopLevelLSP (VBool b)
  | TL_object m : TopLevelLSP (VObject m)
  | TL_array l : TopLevelLSP (VArray l)
  | TL_nil_object : TopLevelLSP VNilObject
  | TL_nil_array : TopLevelLSP VNilArray.

(** Number of constructors of a value, the measure of its induction. *)
Fixpoint vsize (v : value) : nat :=
  match v with
  | VObject m => S (map_fold (λ _ x acc, (vsize x + acc)%nat) 0%nat m)
  | VArray l => S (list_sum (map vsize l))
  | _ => 1%nat
  end.

(** ** Error codes *)

Definition ParseError : Integer := -32700.
Definition InvalidRequest : Integer := -32600.
Definition MethodNotFound : Integer := -32601.
Definition InvalidParams : Integer := -32602.
Definition InternalError : Integer := -32603.

Definition JSONRPCReservedErrorRangeStart : Integer := -32099.
Definition ServerErrorStart : Integer := -32099.
Definition ServerNotInitialized : Integer := -32002.
Definition UnknownErrorCode : Integer := -32001.
Definition JSONRPCReservedErrorRangeEnd : Integer := -32000.
Definition ServerErrorEnd : Integer := -32000.

Definition LSPReservedErrorRangeStart : Integer := -32899.
Definition RequestFailed : Integer := -32803.
Definition ServerCancelled : Integer := -32804.
Definition ContentModified : Integer := -32801.
Definition RequestCancelled : Integer := -32800.
Definition LSPReservedErrorRangeEnd : Integer := -32800.

(** Membership of the two reserved ranges, bounds included. *)
Definition in_JSONRPCReserved (c : Integer) : bool :=
  (JSONRPCReservedErrorRangeStart <=? c) && (c <=? JSONRPCReservedErrorRangeEnd).
Definition in_LSPReserved (c : Integer) : bool :=
  (LSPReservedErrorRangeStart <=? c) && (c <=? LSPReservedErrorRangeEnd).

(** ** Messages *)

(** [json.Number]: a string type holding the text of a JSON number. *)
Definition Number := string.

Record AbstractMessage := mkAbstractMessage { JSONRPC : string }.

Module RequestMessage.
Record t := mk {
  AbstractMessage : AbstractMessage;   (* embedded *)
  ID : Number;                         (* `json:"id"` *)
  Method : string;                     (* `json:"method"` *)
  Params : LSPAny                      (* `json:"params,omitempty"` *)
}.
Definition zero : t := mk (mkAbstractMessage "") "" "" VNil.
End RequestMessage.

Module ResponseError.
Record t := mk {
  Code : Integer;                      (* `json:"code"` *)
  Message : string;                    (* `json:"message"` *)
  Data : LSPAny                        (* `json:"data,omitempty"` *)
}.
Definition zero : t := mk 0 "" VNil.
End ResponseError.

Module ResponseMessage.
Record t := mk {
  AbstractMessage : AbstractMessage;   (* embedded *)
  ID : option Number;                  (* *json.Number, `json:"id"` *)
  Result : LSPAny;                     (* `json:"result,omitempty"` *)
  Error : option ResponseError.t       (* *ResponseError, `json:"error,omitempty"` *)
}.
Definition zero : t := mk (mkAbstractMessage "") None VNil None.
End ResponseMessage.

Module NotificationMessage.
Record t := mk {
  AbstractMessage : AbstractMessage;   (* embedded *)
  Method : string;                     (* `json:"method"` *)
  Params : LSPAny                      (* `json:"params,omitempty"` *)
}.
Definition zero : t := mk (mkAbstractMessage "") "" VNil.
End NotificationMessage.

(** The three message structs as one tagged union. *)
Inductive Message : Type :=
  | Request (m : RequestMessage.t)
  | Response (m : ResponseMessage.t)
  | Notification (m : NotificationMessage.t).

Inductive MessageKind : Type := KRequest | KResponse | KNotification.

Definition kind_of (m : Message) : MessageKind :=
  match m with
  | Request _ => KRequest
  | Response _ => KResponse
  | Notification _ => KNotification
  end.

(** A field of interface or pointer type is present when it is not nil. *)
Definition present (v : value) : bool :=
  match v with VNil => false | _ => true end.

(** The invariant the specification asks of a response: exactly one of
    [result] and [error] is present. *)
Definition exactly_one_of_result_error (r : ResponseMessage.t) : bool :=
  xorb (present (ResponseMessage.Result r))
       (match ResponseMessage.Error r with Some _ => true | None => false end).

(** ** JSON documents *)

(** A parsed JSON text. A number keeps the text of its token, an object
    its members in the order of the text. *)
Inductive json : Type :=
  | JNull
  | JBool (b : bool)
  | JNumber (lit : string)
  | JString (s : string)
  | JArray (l : list json)
  | JObject (members : list (string * json)).

(** The value of member [k] of an object, the first if it is repeated. *)
Definition member (k : string) (j : json) : option json :=
  match j with
  | JObject ms => snd <$> find (λ kv, String.eqb k (fst kv)) ms
  | _ => None
  end.

(** The member names of an object, in order. *)
Definition member_names (j : json) : list string :=
  match j with
  | JObject ms => fst <$> ms
  | _ => []
  end.

(** The nesting depth of a document: the number of arrays and objects
    open at its deepest point, which the scanner of [encoding/json] bounds
    by [maxNestingDepth]. *)
Definition maxNestingDepth : Z := 10000.

Fixpoint nesting_depth (j : json) : Z :=
  match j with
  | JArray l => 1 + foldr Z.max 0 (map nesting_depth l)
  | JObject ms => 1 + foldr Z.max 0 (map (λ kv, nesting_depth (snd kv)) ms)
  | _ => 0
  end.

(** *** Strings as UTF-8 *)

(** [utf8.DecodeRuneInString], as far as the encoder uses it: the number
    of bytes of the well-formed encoding at the head of [s], and [0] when
    the head byte starts none (what the library reports as [RuneError]
    of width 1). The ranges are those of its tables [first] and
    [acceptRanges]. *)
Definition continuation (lo hi : N) (c : ascii) : bool :=
  ((lo <=? N_of_ascii c) && (N_of_ascii c <=? hi))%N.

Definition rune_tail (size : nat) (lo hi : N) (r : string) : nat :=
  match r with
  | String c1 r1 =>
      if continuation lo hi c1 then
        match size with
        | 2%nat => 2%nat
        | _ =>
          match r1 with
          | String c2 r2 =>
              if continuation 0x80 0xBF c2 then
                match size with
                | 3%nat => 3%nat
                | _ =>
                  match r2 with
                  | String c3 _ => if continuation 0x80 0xBF c3 then 4%nat else 0%nat
                  | EmptyString => 0%nat
                  end
                end
              else 0%nat
          | EmptyString => 0%nat
          end
        end
      else 0%nat
  | EmptyString => 0%nat
  end.

Definition rune_len (s : string) : nat :=
  match s with
  | EmptyString => 0%nat
  | String c0 r =>
      let b := N_of_ascii c0 in
      if (b <? 0x80)%N then 1%nat
      else if (b <? 0xC2)%N then 0%nat
      else if (b <=? 0xDF)%N then rune_tail 2 0x80 0xBF r
      else if (b =? 0xE0)%N then rune_tail 3 0xA0 0xBF r
      else if (b <=? 0xEC)%N then rune_tail 3 0x80 0xBF r
      else if (b =? 0xED)%N then rune_tail 3 0x80 0x9F r
      else if (b <=? 0xEF)%N then rune_tail 3 0x80 0xBF r
      else if (b =? 0xF0)%N then rune_tail 4 0x90 0xBF r
      else if (b <=? 0xF3)%N then rune_tail 4 0x80 0xBF r
      else if (b =? 0xF4)%N then rune_tail 4 0x80 0x8F r
      else 0%nat
  end.

(** U+FFFD, the replacement character: bytes EF BF BD. *)
Definition RuneError : string :=
  String (ascii_of_N 0xEF) (String (ascii_of_N 0xBF) (String (ascii_of_N 0xBD) EmptyString)).

(** The text the encoder writes for a string, read back: well-formed
    encodings are kept, every other byte becomes U+FFFD. *)
Fixpoint toValidUTF8 (s : string) : string :=
  match s with
  | EmptyString => EmptyString
  | String c0 r0 =>
      match rune_len s, r0 with
      | 1%nat, _ => String c0 (toValidUTF8 r0)
      | 2%nat, String c1 r1 => String c0 (String c1 (toValidUTF8 r1))
      | 3%nat, String c1 (String c2 r2) =>
          String c0 (String c1 (String c2 (toValidUTF8 r2)))
      | 4%nat, String c1 (String c2 (String c3 r3)) =>
          String c0 (String c1 (String c2 (String c3 (toValidUTF8 r3))))
      | _, _ => RuneError +:+ toValidUTF8 r0
      end
  end.

(** [utf8.ValidString]: the string is a sequence of well-formed encodings. *)
Fixpoint ValidString (s : string) : bool :=
  match s with
  | EmptyString => true
  | String c0 r0 =>
      match rune_len s, r0 with
      | 1%nat, _ => ValidString r0
      | 2%nat, String c1 r1 => ValidString r1
      | 3%nat, String c1 (String c2 r2) => ValidString r2
      | 4%nat, String c1 (String c2 (String c3 r3)) => ValidString r3
      | _, _ => false
      end
  end.

(** *** Number literals *)

Definition is_digit (c : ascii) : bool := (("0" <=? c) && (c <=? "9"))%char.

(** [for len(s) > 0 && '0' <= s[0] && s[0] <= '9' { s = s[1:] }] *)
Fixpoint skip_digits (s : string) : string :=
  match s with
  | String c r => if is_digit c then skip_digits r else s
  | EmptyString => s
  end.

(** The tail of [isValidNumber], after the integer part: an optional
    fraction, an optional exponent, and the end of the text. *)
Definition number_tail (s : string) : bool :=
  let s :=
    match s with
    | String "." (String d r) => if is_digit d then skip_digits r else s
    | _ => s
    end in
  match s with
  | String e (String c r) =>
      if (Ascii.eqb e "e" || Ascii.eqb e "E")%bool then
        if (Ascii.eqb c "+" || Ascii.eqb c "-")%bool then
          match r with
          | EmptyString => false
          | _ => String.eqb (skip_digits r) ""
          end
        else String.eqb (skip_digits (String c r)) ""
      else false
  | EmptyString => true
  | _ => false
  end.

(** [isValidNumber] of [encoding/json]: the JSON number grammar. *)
Definition isValidNumber (s : string) : bool :=
  match s with
  | EmptyString => false
  | _ =>
    let s := match s with String "-" r => r | _ => s end in
    match s with
    | EmptyString => false
    | String c r =>
        if Ascii.eqb c "0" then number_tail r
        else if (("1" <=? c) && (c <=? "9"))%char then number_tail (skip_digits r)
        else false
    end
  end.

(** Decimal text of an integer ([strconv.AppendInt] in base 10) and its
    reading ([strconv.ParseInt] in base 10, on the text of a number token). *)
Definition formatInt (n : Z) : string := NilZero.string_of_int (Z.to_int n).
Definition parseInt (s : string) : option Z := Z.of_int <$> NilZero.int_of_string s.

(** *** Field names *)

(** [foldName]: ASCII letters to upper case; the two non-ASCII runes whose
    case orbit holds an ASCII letter, U+017F (bytes C5 BF) and U+212A
    (bytes E2 84 AA), to that letter. Other bytes are kept, which decides
    equality with an ASCII field name as the full folding does. *)
Fixpoint foldName (s : string) : string :=
  match s with
  | EmptyString => EmptyString
  | String c r =>
      let n := nat_of_ascii c in
      if ((97 <=? n) && (n <=? 122))%nat then String (ascii_of_nat (n - 32)) (foldName r)
      else match n, r with
      | 197%nat, String c1 r1 =>
          if (nat_of_ascii c1 =? 191)%nat then String "S" (foldName r1)
          else String c (foldName r)
      | 226%nat, String c1 (String c2 r2) =>
          if ((nat_of_ascii c1 =? 132) && (nat_of_ascii c2 =? 170))%nat
          then String "K" (foldName r2)
          else String c (foldName r)
      | _, _ => String c (foldName r)
      end
  end.

(** The struct field a member name selects: an exact match of the [json]
    name is preferred, a match up to case folding is accepted. *)
Definition field_of (names : list string) (key : string) : option string :=
  match find (String.eqb key) names with
  | Some f => Some f
  | None => find (λ f, String.eqb (foldName f) (foldName key)) names
  end.

(** ** The codec: [json.Marshal] and [json.Unmarshal] on the message structs

    The file declares no encoder or decoder of its own: its structs carry
    [json] tags, and a message is written with [json.Marshal] and read with
    [json.Unmarshal]. The rules of [encoding/json] that these tags select are
    written out below, on parsed documents; [None] is a returned error.
    A document is the text after the parser has read it: the strings and
    member names it holds are the unquoted ones. *)

(** Members of a Go map are written sorted by key, byte-wise. *)
Definition key_le {A} (x y : string * A) : Prop := String.leb (fst x) (fst y).

Definition sort_members {A} (l : list (string * A)) : list (string * A) :=
  merge_sort key_le l.

(** The names are written as strings are: coerced to valid UTF-8. The
    members stay in the order of the keys as they were. *)
Definition coerce_names {A} (l : list (string * A)) : list (string * A) :=
  (λ kv, (toValidUTF8 (fst kv), snd kv)) <$> l.

(** Conjunction of a boolean test over the keys and values of a map. *)
Definition map_forallb_kv {A} (f : string → A → bool) (m : gmap string A) : bool :=
  map_fold (λ k x acc, f k x && acc) true m.

(** All members, or the first error. *)
Definition sequence_members {A} (l : list (string * option A)) : option (list (string * A)) :=
  mapM (λ kv, pair (fst kv) <$> snd kv) l.

(** [m[key] = value] for each member in turn: a repeated key keeps the last. *)
Definition object_of_members (kvs : list (string * value)) : gmap string value :=
  foldl (λ m kv, <[fst kv := snd kv]> m) ∅ kvs.

(** [json.Number] as a value: the empty text is written [0], a text that
    is not a number is an error. *)
Definition marshal_Number (n : Number) : option json :=
  if String.eqb n "" then Some (JNumber "0")
  else if isValidNumber n then Some (JNumber n) else None.

Definition marshal_NumberPtr (n : option Number) : option json :=
  match n with
  | None => Some JNull
  | Some n => marshal_Number n
  end.

(** Decoding into a [string] field holding [cur]. *)
Definition unmarshal_string (cur : string) (j : json) : option string :=
  match j with
  | JString s => Some s
  | JNull => Some cur
  | _ => None
  end.

(** Decoding into a [json.Number] field holding [cur]: a number token is
    kept as its text; a string is taken when its content is a number. *)
Definition unmarshal_Number (cur : Number) (j : json) : option Number :=
  match j with
  | JNumber s => Some s
  | JString s => if isValidNumber s then Some s else None
  | JNull => Some cur
  | _ => None
  end.

(** Decoding into a [*json.Number] field: [null] sets the pointer to nil. *)
Definition unmarshal_NumberPtr (cur : option Number) (j : json) : option (option Number) :=
  match j with
  | JNull => Some None
  | _ => Some <$> unmarshal_Number (default "" cur) j
  end.

(** Decoding into an [int32] field holding [cur]. *)
Definition unmarshal_Integer (cur : Integer) (j : json) : option Integer :=
  match j with
  | JNumber s => n ← parseInt s; if in_Integerb n then Some n else None
  | JNull => Some cur
  | _ => None
  end.

Section Codec.

(** What [strconv] contributes: the text the float encoder writes for a
    [float64] (shortest text that reads back to it; no text for NaN and
    the infinities, which [Marshal] refuses), and the [float64] read from
    the text of a number token (none when out of range). *)
Variable FormatFloat : Decimal → option string.
Variable ParseFloat : string → option Decimal.

(** [Marshal] of a value held in an interface; a nil map and a nil slice
    are written [null], a string and the keys of a map are coerced to valid
    UTF-8. *)
Fixpoint marshal_any (v : value) : option json :=
  match v with
  | VNil => Some JNull
  | VString s => Some (JString (toValidUTF8 s))
  | VInteger n | VUInteger n | VInt n => Some (JNumber (formatInt n))
  | VDecimal f => JNumber <$> FormatFloat f
  | VBool b => Some (JBool b)
  | VObject m =>
      JObject <$> sequence_members
        (coerce_names (sort_members (map_to_list (marshal_any <$> m))))
  | VArray l => JArray <$> mapM marshal_any l
  | VNilObject | VNilArray => Some JNull
  | VChan => None
  end.

(** [Unmarshal] into a nil interface: [nil], [bool], [float64], [string],
    [[]any] and [map[string]any]. *)
Fixpoint unmarshal_any (j : json) : option value :=
  match j with
  | JNull => Some VNil
  | JBool b => Some (VBool b)
  | JNumber s => VDecimal <$> ParseFloat s
  | JString s => Some (VString s)
  | JArray l => VArray <$> mapM unmarshal_any l
  | JObject ms =>
      (λ kvs, VObject (object_of_members kvs)) <$>
        mapM (λ kv, pair (fst kv) <$> unmarshal_any (snd kv)) ms
  end.

(** A field tagged [omitempty] of interface type is left out when nil. *)
Definition marshal_omitempty (name : string) (v : value) : option (list (string * json)) :=
  match v with
  | VNil => Some []
  | _ => j ← marshal_any v; Some [(name, j)]
  end.

Definition marshal_ResponseError (e : ResponseError.t) : option json :=
  data ← marshal_omitempty "data" (ResponseError.Data e);
  Some (JObject ([("code", JNumber (formatInt (ResponseError.Code e)));
                  ("message", JString (toValidUTF8 (ResponseError.Message e)))] ++ data)).

(** A pointer field tagged [omitempty] is left out when nil. *)
Definition marshal_omitempty_error (e : option ResponseError.t) : option (list (string * json)) :=
  match e with
  | None => Some []
  | Some e => j ← marshal_ResponseError e; Some [("error", j)]
  end.

Definition marshal_RequestMessage (m : RequestMessage.t) : option json :=
  id ← marshal_Number (RequestMessage.ID m);
  params ← marshal_omitempty "params" (RequestMessage.Params m);
  Some (JObject ([("jsonrpc", JString (toValidUTF8 (JSONRPC (RequestMessage.AbstractMessage m))));
                  ("id", id);
                  ("method", JString (toValidUTF8 (RequestMessage.Method m)))] ++ params)).

Definition marshal_ResponseMessage (m : ResponseMessage.t) : option json :=
  id ← marshal_NumberPtr (ResponseMessage.ID m);
  result ← marshal_omitempty "result" (ResponseMessage.Result m);
  error ← marshal_omitempty_error (ResponseMessage.Error m);
  Some (JObject ([("jsonrpc", JString (toValidUTF8 (JSONRPC (ResponseMessage.AbstractMessage m))));
                  ("id", id)] ++ result ++ error)).

Definition marshal_NotificationMessage (m : NotificationMessage.t) : option json :=
  params ← marshal_omitempty "params" (NotificationMessage.Params m);
  Some (JObject ([("jsonrpc", JString (toValidUTF8 (JSONRPC (NotificationMessage.AbstractMessage m))));
                  ("method", JString (toValidUTF8 (NotificationMessage.Method m)))] ++ params)).

(** [encode]: [json.Marshal] of the message. *)
Definition Marshal (m : Message) : option json :=
  match m with
  | Request m => marshal_RequestMessage m
  | Response m => marshal_ResponseMessage m
  | Notification m => marshal_NotificationMessage m
  end.

(** Decoding one member into the field it selects; an unknown member is
    skipped. *)
Definition set_ResponseError (e : ResponseError.t) (kv : string * json) : option ResponseError.t :=
  let '(ResponseError.mk code message data) := e in
  match field_of ["code"; "message"; "data"] (fst kv) with
  | Some "code" => c ← unmarshal_Integer code (snd kv); Some (ResponseError.mk c message data)
  | Some "message" => s ← unmarshal_string message (snd kv); Some (ResponseError.mk code s data)
  | Some "data" => d ← unmarshal_any (snd kv); Some (ResponseError.mk code message d)
  | _ => Some e
  end.

(** Members are decoded in the order of the text, each into the struct
    as the members before it left it. *)
Definition unmarshal_members {T} (set : T → string * json → option T)
    (ms : list (string * json)) (init : T) : option T :=
  foldl (λ acc kv, t ← acc; set t kv) (Some init) ms.

(** Decoding into a [*ResponseError] field: [null] sets it to nil, an
    object fills the struct pointed to, allocated when the pointer is nil. *)
Definition unmarshal_ResponseErrorPtr (cur : option ResponseError.t) (j : json)
    : option (option ResponseError.t) :=
  match j with
  | JNull => Some None
  | JObject ms => Some <$> unmarshal_members set_ResponseError ms (default ResponseError.zero cur)
  | _ => None
  end.

Definition set_RequestMessage (m : RequestMessage.t) (kv : string * json) : option RequestMessage.t :=
  let '(RequestMessage.mk a id method params) := m in
  match field_of ["jsonrpc"; "id"; "method"; "params"] (fst kv) with
  | Some "jsonrpc" =>
      s ← unmarshal_string (JSONRPC a) (snd kv);
      Some (RequestMessage.mk (mkAbstractMessage s) id method params)
  | Some "id" => n ← unmarshal_Number id (snd kv); Some (RequestMessage.mk a n method params)
  | Some "method" => s ← unmarshal_string method (snd kv); Some (RequestMessage.mk a id s params)
  | Some "params" => p ← unmarshal_any (snd kv); Some (RequestMessage.mk a id method p)
  | _ => Some m
  end.

Definition set_ResponseMessage (m : ResponseMessage.t) (kv : string * json) : option ResponseMessage.t :=
  let '(ResponseMessage.mk a id result error) := m in
  match field_of ["jsonrpc"; "id"; "result"; "error"] (fst kv) with
  | Some "jsonrpc" =>
      s ← unmarshal_string (JSONRPC a) (snd kv);
      Some (ResponseMessage.mk (mkAbstractMessage s) id result error)
  | Some "id" => n ← unmarshal_NumberPtr id (snd kv); Some (ResponseMessage.mk a n result error)
  | Some "result" => r ← unmarshal_any (snd kv); Some (ResponseMessage.mk a id r error)
  | Some "error" =>
      e ← unmarshal_ResponseErrorPtr error (snd kv); Some (ResponseMessage.mk a id result e)
  | _ => Some m
  end.

Definition set_NotificationMessage (m : NotificationMessage.t) (kv : string * json)
    : option NotificationMessage.t :=
  let '(NotificationMessage.mk a method params) := m in
  match field_of ["jsonrpc"; "method"; "params"] (fst kv) with
  | Some "jsonrpc" =>
      s ← unmarshal_string (JSONRPC a) (snd kv);
      Some (NotificationMessage.mk (mkAbstractMessage s) method params)
  | Some "method" => s ← unmarshal_string method (snd kv); Some (NotificationMessage.mk a s params)
  | Some "params" => p ← unmarshal_any (snd kv); Some (NotificationMessage.mk a method p)
  | _ => Some m
  end.

(** [Unmarshal] into a pointer to a zero struct. The whole text is
    scanned first, and refused when it nests deeper than [maxNestingDepth];
    then an object fills the struct, [null] leaves it, any other document
    is a type error. *)
Definition unmarshal_struct {T} (set : T → string * json → option T) (zero : T) (j : json)
    : option T :=
  if maxNestingDepth <? nesting_depth j then None
  else match j with
       | JObject ms => unmarshal_members set ms zero
       | JNull => Some zero
       | _ => None
       end.

Definition unmarshal_RequestMessage : json → option RequestMessage.t :=
  unmarshal_struct set_RequestMessage RequestMessage.zero.
Definition unmarshal_ResponseMessage : json → option ResponseMessage.t :=
  unmarshal_struct set_ResponseMessage ResponseMessage.zero.
Definition unmarshal_NotificationMessage : json → option NotificationMessage.t :=
  unmarshal_struct set_NotificationMessage NotificationMessage.zero.

(** [decode]: [json.Unmarshal] into the struct of the wanted kind. *)
Definition Unmarshal (k : MessageKind) (j : json) : option Message :=
  match k with
  | KRequest => Request <$> unmarshal_RequestMessage j
  | KResponse => Response <$> unmarshal_ResponseMessage j
  | KNotification => Notification <$> unmarshal_NotificationMessage j
  end.

(** Payloads that [Unmarshal] gives back as they were: built from the
    types it stores in an interface, with every string and every key valid
    UTF-8 and every [float64] written to a text that reads back to it. *)
Fixpoint reads_back (v : value) : bool :=
  match v with
  | VNil | VBool _ => true
  | VString s => ValidString s
  | VDecimal f =>
      match FormatFloat f with
      | Some s => bool_decide (ParseFloat s = Some f)
      | None => false
      end
  | VObject m => map_forallb_kv (λ k x, ValidString k && reads_back x) m
  | VArray l => forallb reads_back l
  | VInteger _ | VUInteger _ | VInt _ | VChan | VNilObject | VNilArray => false
  end.

Definition error_reads_back (e : option ResponseError.t) : bool :=
  match e with
  | None => true
  | Some e =>
      in_Integerb (ResponseError.Code e) && ValidString (ResponseError.Message e)
      && reads_back (ResponseError.Data e)
  end.

(** Messages whose identifier is the text of a number, whose strings are
    valid UTF-8 and whose payloads read back. *)
Definition round_trips (m : Message) : bool :=
  match m with
  | Request r =>
      ValidString (JSONRPC (RequestMessage.AbstractMessage r))
      && isValidNumber (RequestMessage.ID r)
      && ValidString (RequestMessage.Method r)
      && reads_back (RequestMessage.Params r)
  | Response r =>
      ValidString (JSONRPC (ResponseMessage.AbstractMessage r))
      && match ResponseMessage.ID r with Some n => isValidNumber n | None => true end
      && reads_back (ResponseMessage.Result r)
      && error_reads_back (ResponseMessage.Error r)
  | Notification n =>
      ValidString (JSONRPC (NotificationMessage.AbstractMessage n))
      && ValidString (NotificationMessage.Method n)
      && reads_back (NotificationMessage.Params n)
  end.

(** What decoding the encoding [j] of [m] gives when every field reads
    back: [m], unless [j] nests deeper than the scanner allows. *)
Definition decoded_unless_too_deep {T} (j : json) (m : T) : option T :=
  if maxNestingDepth <? nesting_depth j then None else Some m.

End Codec.

(** ** Concrete data for the examples *)

(** An excerpt of [strconv] on three floats, 1, 1.5 and 5, given by
    their bit patterns; outside the excerpt it gives no answer. *)
Definition FormatFloat_excerpt (bits : Decimal) : option string :=
  if bits =? 0x3FF0000000000000 then Some "1"
  else if bits =? 0x3FF8000000000000 then Some "1.5"
  else if bits =? 0x4014000000000000 then Some "5"
  else None.

Definition ParseFloat_excerpt (s : string) : option Decimal :=
  if String.eqb s "1" then Some 0x3FF0000000000000
  else if String.eqb s "1.5" then Some 0x3FF8000000000000
  else if String.eqb s "5" then Some 0x4014000000000000
  else None.

(** A valid message, after the specification's data model: version
    ["2.0"], an identifier that is a number, payloads in the StructuredValue
    grammar, an error code that is a 32-bit integer, and in a response
    exactly one of result and error. *)
Definition ValidError (e : option ResponseError.t) : bool :=
  match e with
  | None => true
  | Some e => in_Integerb (ResponseError.Code e) && StructuredValue (ResponseError.Data e)
  end.

Definition ValidMessage (m : Message) : bool :=
  match m with
  | Request r =>
      String.eqb (JSONRPC (RequestMessage.AbstractMessage r)) "2.0"
      && isValidNumber (RequestMessage.ID r)
      && StructuredValue (RequestMessage.Params r)
  | Response r =>
      String.eqb (JSONRPC (ResponseMessage.AbstractMessage r)) "2.0"
      && match ResponseMessage.ID r with Some n => isValidNumber n | None => true end
      && StructuredValue (ResponseMessage.Result r)
      && ValidError (ResponseMessage.Error r)
      && exactly_one_of_result_error r
  | Notification n =>
      String.eqb (JSONRPC (NotificationMessage.AbstractMessage n)) "2.0"
      && StructuredValue (NotificationMessage.Params n)
  end.

(** [{"jsonrpc":"2.0","id":1,"method":"ping"}] with [params] the [Integer] 5. *)
Definition ping_with_Integer : Message :=
  Request (RequestMessage.mk (mkAbstractMessage "2.0") "1" "ping" (VInteger 5)).

(** The same request with [params] the array [["a", true, 1.5]]. *)
Definition ping_with_array : Message :=
  Request (RequestMessage.mk (mkAbstractMessage "2.0") "1" "ping"
             (VArray [VString "a"; VBool true; VDecimal 0x3FF8000000000000])).

(** A response carrying an error and no result. *)
Definition method_not_found_record : ResponseMessage.t :=
  ResponseMessage.mk (mkAbstractMessage "2.0") (Some "1") VNil
    (Some (ResponseError.mk (-32601) "method not found" VNil)).

Definition method_not_found_response : Message := Response method_not_found_record.

(** A notification with an object as [params]. *)
Definition progress_record : NotificationMessage.t :=
  NotificationMessage.mk (mkAbstractMessage "2.0") "$/progress"
    (VObject {[ "token" := VString "t"; "value" := VBool true ]}).

Definition progress_notification : Message := Notification progress_record.

(** ** What the claims speak of *)


Definition optional (b : bool) (name : string) : list string :=
  if b then [name] else [].



Definition has_member (k : string) (j : json) : bool :=
  match member k j with Some _ => true | None => false end.

(** A request document whose [id] is the JSON string ["7"], and one whose
    [id] is the JSON string ["abc"]. *)
Definition request_with_string_id (id : string) : json :=
  JObject [("jsonrpc", JString "2.0"); ("id", JString id); ("method", JString "ping")].

(** A response with both a result and an error. *)
Definition response_with_both : ResponseMessage.t :=
  ResponseMessage.mk (mkAbstractMessage "2.0") (Some "1") (VString "ok")
    (Some (ResponseError.mk (-32603) "internal error" VNil)).

(** ** The parameter structs *)

(** [CancelParams]: the identifier of the request to cancel. *)
Module CancelParams.
Record t := mk {
  ID : Number                          (* `json:"id"` *)
}.
Definition zero : t := mk "".
End CancelParams.

(** [ProgressParams[T any]]: a token and a value of the type parameter. *)
Module ProgressParams.
Record t (T : Type) := mk {
  Token : Number;                      (* `json:"token"` *)
  Value : T                            (* `json:"value"` *)
}.
Arguments mk {T} _ _.
Arguments Token {T} _.
Arguments Value {T} _.
End ProgressParams.

Definition marshal_CancelParams (p : CancelParams.t) : option json :=
  id ← marshal_Number (CancelParams.ID p);
  Some (JObject [("id", id)]).

Definition set_CancelParams (p : CancelParams.t) (kv : string * json) : option CancelParams.t :=
  match field_of ["id"] (fst kv) with
  | Some "id" => n ← unmarshal_Number (CancelParams.ID p) (snd kv); Some (CancelParams.mk n)
  | _ => Some p
  end.

Definition unmarshal_CancelParams : json → option CancelParams.t :=
  unmarshal_struct set_CancelParams CancelParams.zero.

Section ProgressParamsCodec.

(** What the type argument brings: its zero value, how [Marshal] writes
    one of its values, and how [Unmarshal] decodes into a variable of the
    type holding a given value. *)
Variable T : Type.
Variable zero_T : T.
Variable marshal_T : T → option json.
Variable unmarshal_T : T → json → option T.

Definition marshal_ProgressParams (p : ProgressParams.t T) : option json :=
  token ← marshal_Number (ProgressParams.Token p);
  value ← marshal_T (ProgressParams.Value p);
  Some (JObject [("token", token); ("value", value)]).

Definition set_ProgressParams (p : ProgressParams.t T) (kv : string * json)
    : option (ProgressParams.t T) :=
  match field_of ["token"; "value"] (fst kv) with
  | Some "token" =>
      n ← unmarshal_Number (ProgressParams.Token p) (snd kv);
      Some (ProgressParams.mk n (ProgressParams.Value p))
  | Some "value" =>
      v ← unmarshal_T (ProgressParams.Value p) (snd kv);
      Some (ProgressParams.mk (ProgressParams.Token p) v)
  | _ => Some p
  end.

Definition unmarshal_ProgressParams : json → option (ProgressParams.t T) :=
  unmarshal_struct set_ProgressParams (ProgressParams.mk "" zero_T).

End ProgressParamsCodec.

(** ** Measures and predicates of the further properties *)

(** Number of constructors of a document, the measure of its induction. *)
Fixpoint jsize (j : json) : nat :=
  match j with
  | JArray l => S (list_sum (map jsize l))
  | JObject ms => S (list_sum (map (λ kv, jsize (snd kv)) ms))
  | _ => 1%nat
  end.

Definition is_container (j : json) : bool :=
  match j with
  | JArray _ | JObject _ => true
  | _ => false
  end.

(** Every number token of a document is a number literal. *)
Fixpoint number_tokens_valid (j : json) : bool :=
  match j with
  | JNumber s => isValidNumber s
  | JArray l => forallb number_tokens_valid l
  | JObject ms => forallb (λ kv, number_tokens_valid (snd kv)) ms
  | _ => true
  end.

(** The [json] names of the fields of each message struct. *)
Definition fields_of_kind (k : MessageKind) : list string :=
  match k with
  | KRequest => ["jsonrpc"; "id"; "method"; "params"]
  | KResponse => ["jsonrpc"; "id"; "result"; "error"]
  | KNotification => ["jsonrpc"; "method"; "params"]
  end.

(** The token an identifier is written as. *)
Definition ID_token (n : Number) : json :=
  JNumber (if String.eqb n "" then "0" else n).

(** The [id] member an encoded message is to have: the token of the
    identifier, [null] for the nil identifier of a response, none in a
    notification. *)
Definition id_member (m : Message) : option json :=
  match m with
  | Request r => Some (ID_token (RequestMessage.ID r))
  | Response r =>
      Some (match ResponseMessage.ID r with Some n => ID_token n | None => JNull end)
  | Notification _ => None
  end.

(** The text an identifier is read back as after it was written. *)
Definition ID_written (n : Number) : Number :=
  if String.eqb n "" then "0" else n.

Section Marshalable.

Variable FormatFloat : Decimal → option string.

(** A value free, at every depth, of channels and of floats without text. *)
Fixpoint marshalable (v : value) : bool :=
  match v with
  | VChan => false
  | VDecimal f => match FormatFloat f with Some _ => true | None => false end
  | VObject m => map_forallb marshalable m
  | VArray l => forallb marshalable l
  | _ => true
  end.

(** Every float of the value, at every depth, has a text. *)
Fixpoint floats_have_text (v : value) : bool :=
  match v with
  | VDecimal f => match FormatFloat f with Some _ => true | None => false end
  | VObject m => map_forallb floats_have_text m
  | VArray l => forallb floats_have_text l
  | _ => true
  end.

Definition ID_encodable (n : Number) : bool :=
  String.eqb n "" || isValidNumber n.

Definition encodable (m : Message) : bool :=
  match m with
  | Request r => ID_encodable (RequestMessage.ID r) && marshalable (RequestMessage.Params r)
  | Response r =>
      match ResponseMessage.ID r with Some n => ID_encodable n | None => true end
      && marshalable (ResponseMessage.Result r)
      && match ResponseMessage.Error r with
         | Some e => marshalable (ResponseError.Data e)
         | None => true
         end
  | Notification n => marshalable (NotificationMessage.Params n)
  end.

End Marshalable.

(** The named error codes, in the order of their declaration. *)
Definition ErrorCodes : list Integer :=
  [ParseError; InvalidRequest; MethodNotFound; InvalidParams; InternalError;
   ServerNotInitialized; UnknownErrorCode;
   RequestFailed; ServerCancelled; ContentModified; RequestCancelled].

(** * Properties *)

(** ** The definitions on concrete inputs *)

Example isValidNumber_accepts :
  forallb isValidNumber ["0"; "1"; "-1"; "12345"; "1.5"; "1e5"; "1E+5"; "-0.0e-0"] = true.
Proof. reflexivity. Qed.

Example isValidNumber_rejects :
  existsb isValidNumber [""; "-"; "01"; "1."; ".5"; "1e"; "1e+"; "+1"; "abc"; "1x"] = false.
Proof. reflexivity. Qed.

Example formatInt_MethodNotFound : formatInt MethodNotFound = "-32601".
Proof. reflexivity. Qed.

Example field_of_is_case_insensitive :
  field_of ["jsonrpc"; "id"; "method"; "params"] "JsonRPC" = Some "jsonrpc" ∧
  field_of ["jsonrpc"; "id"; "method"; "params"] "ids" = None.
Proof. split; reflexivity. Qed.

(** The scenario of the specification: the body
    [{"jsonrpc":"2.0","id":1,"method":"ping"}] is read as a request with
    identifier 1, method ping and no params. *)
Example unmarshal_ping :
  Unmarshal ParseFloat_excerpt KRequest
    (JObject [("jsonrpc", JString "2.0"); ("id", JNumber "1"); ("method", JString "ping")])
  = Some (Request (RequestMessage.mk (mkAbstractMessage "2.0") "1" "ping" VNil)).
Proof. reflexivity. Qed.

(** A repeated member keeps the last value; an unknown member is skipped. *)
Example unmarshal_repeated_member :
  unmarshal_NotificationMessage ParseFloat_excerpt
    (JObject [("method", JString "a"); ("extra", JBool true); ("method", JString "b")])
  = Some (NotificationMessage.mk (mkAbstractMessage "") "b" VNil).
Proof. reflexivity. Qed.

(** A nil slice as [params] is written [null] and read back as nil. *)
Example nil_slice_params :
  (marshal_NotificationMessage FormatFloat_excerpt
     (NotificationMessage.mk (mkAbstractMessage "2.0") "m" VNilArray)
   ≫= unmarshal_NotificationMessage ParseFloat_excerpt)
  = Some (NotificationMessage.mk (mkAbstractMessage "2.0") "m" VNil).
Proof. reflexivity. Qed.

(** A map is written with its keys sorted. *)
Example marshal_sorts_keys :
  marshal_any FormatFloat_excerpt
    (VObject {[ "b" := VBool true; "ab" := VNil; "a" := VString "x" ]})
  = Some (JObject [("a", JString "x"); ("ab", JNull); ("b", JBool true)]).
Proof. vm_compute. reflexivity. Qed.

(** Bytes that are not UTF-8 are written as U+FFFD: a lone [FF], the
    overlong [C0 80], the surrogate [ED A0 80]; a well-formed encoding such
    as [C3 A9] is kept. *)
Example toValidUTF8_coerces :
  toValidUTF8 (String (ascii_of_N 0xFF) "a") = RuneError +:+ "a" ∧
  toValidUTF8 (String (ascii_of_N 0xC0) (String (ascii_of_N 0x80) ""))
  = RuneError +:+ RuneError ∧
  toValidUTF8 (String (ascii_of_N 0xED) (String (ascii_of_N 0xA0) (String (ascii_of_N 0x80) "")))
  = RuneError +:+ RuneError +:+ RuneError ∧
  toValidUTF8 (String (ascii_of_N 0xC3) (String (ascii_of_N 0xA9) "x"))
  = String (ascii_of_N 0xC3) (String (ascii_of_N 0xA9) "x") ∧
  ValidString (String (ascii_of_N 0xC3) (String (ascii_of_N 0xA9) "x")) = true ∧
  ValidString RuneError = true ∧
  ValidString (String (ascii_of_N 0xFF) "a") = false.
Proof. repeat split; reflexivity. Qed.

(** A method that is not valid UTF-8 does not come back. *)
Example invalid_method_is_coerced :
  (marshal_NotificationMessage FormatFloat_excerpt
     (NotificationMessage.mk (mkAbstractMessage "2.0") (String (ascii_of_N 0xFF) "") VNil)
   ≫= unmarshal_NotificationMessage ParseFloat_excerpt)
  = Some (NotificationMessage.mk (mkAbstractMessage "2.0") RuneError VNil).
Proof. reflexivity. Qed.

(** Two keys that are not valid UTF-8 are written under the same name. *)
Example invalid_keys_collide :
  member_names <$>
    marshal_any FormatFloat_excerpt
      (VObject {[ String (ascii_of_N 0xFF) "" := VBool true;
                  String (ascii_of_N 0xFE) "" := VBool false ]})
  = Some [RuneError; RuneError].
Proof. vm_compute. reflexivity. Qed.

(** A document of 10000 levels is decoded, one of 10001 is refused. *)
Example unmarshal_depth_limit :
  nesting_depth (JObject [("params", N.iter 9999 (λ j, JArray [j]) JNull)]) = 10000 ∧
  is_Some (unmarshal_NotificationMessage ParseFloat_excerpt
             (JObject [("params", N.iter 9999 (λ j, JArray [j]) JNull)])) ∧
  unmarshal_NotificationMessage ParseFloat_excerpt
    (JObject [("params", N.iter 10000 (λ j, JArray [j]) JNull)]) = None.
Proof.
  split; [vm_compute; reflexivity|]. split; [|vm_compute; reflexivity].
  apply is_Some_alt. vm_compute. exact I.
Qed.

(** ** Induction over dynamic values *)

Lemma map_fold_vsize_insert (m : gmap string value) i x :
  m !! i = None →
  map_fold (λ _ x acc, (vsize x + acc)%nat) 0%nat (<[i:=x]> m)
  = (vsize x + map_fold (λ _ x acc, (vsize x + acc)%nat) 0%nat m)%nat.
Proof.
  intros Hi. apply (map_fold_insert_L (λ _ x acc, (vsize x + acc)%nat)); [|done].
  intros; lia.
Qed.

Lemma vsize_lookup (m : gmap string value) k v :
  m !! k = Some v → (vsize v < vsize (VObject m))%nat.
Proof.
  simpl. revert k v. induction m as [|i x m Hi _ IH] using map_first_key_ind; intros k v Hk.
  - by rewrite lookup_empty in Hk.
  - rewrite map_fold_vsize_insert by done.
    destruct (decide (i = k)) as [->|Hne].
    + rewrite lookup_insert_eq in Hk. injection Hk as ->. lia.
    + rewrite lookup_insert_ne in Hk by done. specialize (IH _ _ Hk). lia.
Qed.

Lemma vsize_elem (l : list value) v :
  v ∈ l → (vsize v < vsize (VArray l))%nat.
Proof.
  simpl. induction 1; simpl; lia.
Qed.

(** Structural induction through maps and lists. *)
Lemma value_ind' (P : value → Prop) :
  P VNil → (∀ s, P (VString s)) → (∀ n, P (VInteger n)) → (∀ n, P (VUInteger n)) →
  (∀ f, P (VDecimal f)) → (∀ b, P (VBool b)) →
  (∀ m, map_Forall (λ _ v, P v) m → P (VObject m)) →
  (∀ l, Forall P l → P (VArray l)) →
  (∀ n, P (VInt n)) → P VChan → P VNilObject → P VNilArray →
  ∀ v, P v.
Proof.
  intros Hnil Hs Hi Hu Hf Hb Ho Ha Hn Hc Hno Hna v.
  remember (vsize v) as n eqn:Hsz. revert v Hsz.
  induction n as [n IH] using lt_wf_ind. intros v ->.
  destruct v; auto.
  - apply Ho. intros k v Hk. eapply IH; [|reflexivity]. by eapply vsize_lookup.
  - apply Ha. apply Forall_forall. intros v Hv. eapply IH; [|reflexivity].
    by apply vsize_elem.
Qed.

Lemma map_forallb_Forall {A} (f : A → bool) (m : gmap string A) :
  map_forallb f m = true ↔ map_Forall (λ _ x, f x = true) m.
Proof.
  unfold map_forallb.
  induction m as [|i x m Hi Hfold IH] using map_first_key_ind.
  - rewrite map_fold_empty. split; [intros _; apply map_Forall_empty|done].
  - rewrite map_fold_insert_first_key by done.
    rewrite andb_true_iff, IH, map_Forall_insert by done. reflexivity.
Qed.

(** ** Integers as decimal text *)

Lemma parseInt_formatInt n : parseInt (formatInt n) = Some n.
Proof.
  unfold parseInt, formatInt.
  rewrite NilZero.isi.
  - simpl. by rewrite DecimalZ.of_to.
  - destruct n; simpl; [done| |done]. intros [= H]. by apply DecimalPos.Unsigned.to_uint_nonnil in H.
  - destruct n; simpl; [done|done|]. intros [= H]. by apply DecimalPos.Unsigned.to_uint_nonnil in H.
Qed.

Lemma isValidNumber_nonempty n : isValidNumber n = true → String.eqb n "" = false.
Proof. by destruct n. Qed.

(** ** Lists of results and maps built member by member *)

Lemma mapM_mapM {A B C} (f : A → option B) (g : B → option C) (h : A → C) (l : list A) :
  Forall (λ x, ∃ y, f x = Some y ∧ g y = Some (h x)) l →
  ∃ k, mapM f l = Some k ∧ mapM g k = Some (h <$> l).
Proof.
  induction 1 as [|x l (y & Hf & Hg) _ (k & Hk & Hk')].
  - by exists [].
  - exists (y :: k). simpl. rewrite Hf, Hk, Hg, Hk'. done.
Qed.

Lemma foldl_insert_list_to_map (kvs : list (string * value)) (a : gmap string value) :
  NoDup (kvs.*1) →
  foldl (λ m kv, <[fst kv := snd kv]> m) a kvs = list_to_map kvs ∪ a.
Proof.
  revert a. induction kvs as [|[k v] kvs IH]; intros a Hnd; simpl.
  - by rewrite (left_id_L ∅ (∪)).
  - apply NoDup_cons in Hnd as [Hk Hnd].
    rewrite IH by done.
    rewrite <-insert_union_r by (by apply not_elem_of_list_to_map_1).
    by rewrite insert_union_l.
Qed.

Lemma object_of_members_to_list (kvs : list (string * value)) (m : gmap string value) :
  kvs ≡ₚ map_to_list m → object_of_members kvs = m.
Proof.
  intros Hp. unfold object_of_members.
  rewrite foldl_insert_list_to_map, (right_id_L ∅ (∪)).
  - rewrite <-(list_to_map_to_list m). apply list_to_map_proper; [|done].
    rewrite Hp. apply NoDup_fst_map_to_list.
  - rewrite Hp. apply NoDup_fst_map_to_list.
Qed.

(** ** Valid UTF-8 is written unchanged *)

Lemma toValidUTF8_unfold c0 r0 :
  toValidUTF8 (String c0 r0) =
  match rune_len (String c0 r0), r0 with
  | 1%nat, _ => String c0 (toValidUTF8 r0)
  | 2%nat, String c1 r1 => String c0 (String c1 (toValidUTF8 r1))
  | 3%nat, String c1 (String c2 r2) =>
      String c0 (String c1 (String c2 (toValidUTF8 r2)))
  | 4%nat, String c1 (String c2 (String c3 r3)) =>
      String c0 (String c1 (String c2 (String c3 (toValidUTF8 r3))))
  | _, _ => RuneError +:+ toValidUTF8 r0
  end.
Proof. reflexivity. Qed.

Lemma ValidString_unfold c0 r0 :
  ValidString (String c0 r0) =
  match rune_len (String c0 r0), r0 with
  | 1%nat, _ => ValidString r0
  | 2%nat, String c1 r1 => ValidString r1
  | 3%nat, String c1 (String c2 r2) => ValidString r2
  | 4%nat, String c1 (String c2 (String c3 r3)) => ValidString r3
  | _, _ => false
  end.
Proof. reflexivity. Qed.

Lemma toValidUTF8_valid (s : string) : ValidString s = true → toValidUTF8 s = s.
Proof.
  remember (String.length s) as n eqn:Hn. revert s Hn.
  induction n as [n IH] using lt_wf_ind. intros s -> Hs.
  destruct s as [|c0 r0]; [done|].
  rewrite ValidString_unfold in Hs. rewrite toValidUTF8_unfold.
  destruct (rune_len (String c0 r0)) as [|[|[|[|[|k]]]]]; try done.
  - f_equal. eapply IH; [|reflexivity|done]. simpl. lia.
  - destruct r0 as [|c1 r1]; [done|]. do 2 f_equal.
    eapply IH; [|reflexivity|done]. simpl. lia.
  - destruct r0 as [|c1 [|c2 r2]]; try done. do 3 f_equal.
    eapply IH; [|reflexivity|done]. simpl. lia.
  - destruct r0 as [|c1 [|c2 [|c3 r3]]]; try done. do 4 f_equal.
    eapply IH; [|reflexivity|done]. simpl. lia.
Qed.

Lemma coerce_names_valid {A} (l : list (string * A)) :
  Forall (λ kv, ValidString (fst kv) = true) l → coerce_names l = l.
Proof.
  intros Hl. unfold coerce_names. rewrite <-(list_fmap_id l) at 2.
  apply Forall_fmap_ext. eapply Forall_impl; [exact Hl|].
  intros [k x] Hk. simpl in *. by rewrite toValidUTF8_valid.
Qed.

Lemma map_forallb_kv_Forall {A} (f : string → A → bool) (m : gmap string A) :
  map_forallb_kv f m = true ↔ map_Forall (λ k x, f k x = true) m.
Proof.
  unfold map_forallb_kv.
  induction m as [|i x m Hi Hfold IH] using map_first_key_ind.
  - rewrite map_fold_empty. split; [intros _; apply map_Forall_empty|done].
  - rewrite map_fold_insert_first_key by done.
    rewrite andb_true_iff, IH, map_Forall_insert by done. reflexivity.
Qed.

Lemma Forall_coerce_names_snd {A} (P : A → Prop) (l : list (string * A)) :
  Forall (λ kv, P (snd kv)) (coerce_names l) ↔ Forall (λ kv, P (snd kv)) l.
Proof. unfold coerce_names. by rewrite Forall_fmap. Qed.

(** The keys of the members a map is written from are the keys of the map. *)
Lemma sorted_members_keys {A B} (f : A → B) (m : gmap string A) (P : string → Prop) :
  map_Forall (λ k _, P k) m →
  Forall (λ kv, P (fst kv)) (sort_members (map_to_list (f <$> m))).
Proof.
  intros Hm. apply Forall_forall. intros [k y] Hin.
  unfold sort_members in Hin. rewrite merge_sort_Permutation in Hin.
  apply elem_of_map_to_list in Hin. rewrite lookup_fmap in Hin.
  destruct (m !! k) as [x|] eqn:Hk; [|done]. exact (Hm k x Hk).
Qed.

(** ** Payloads read back *)

Section CodecFacts.

Variable FormatFloat : Decimal → option string.
Variable ParseFloat : string → option Decimal.


Lemma unmarshal_marshal_any v :
  reads_back FormatFloat ParseFloat v = true → ∃ j, marshal_any FormatFloat v = Some j ∧ unmarshal_any ParseFloat j = Some v.
Proof.
  induction v as [|s|n|n|f|b|m IH|l IH|n| | |] using value_ind'; simpl; try done; eauto.
  - (* string *)
    intros Hs. eexists; split; [done|]. simpl. by rewrite toValidUTF8_valid.
  - (* float64 *)
    destruct (FormatFloat f) as [s|]; [|done].
    intros Hp%bool_decide_eq_true. exists (JNumber s). simpl. by rewrite Hp.
  - (* map[string]any *)
    intros Hkv%map_forallb_kv_Forall.
    assert (Hm : map_Forall (λ _ v, reads_back FormatFloat ParseFloat v = true) m).
    { intros k v Hk. by destruct (andb_prop _ _ (Hkv k v Hk)). }
    rewrite coerce_names_valid.
    2:{ apply (sorted_members_keys _ m (λ k, ValidString k = true)).
        intros k v Hk. by destruct (andb_prop _ _ (Hkv k v Hk)). }
    set (h := λ kv : string * option json,
                (fst kv, default VNil (snd kv ≫= unmarshal_any ParseFloat))).
    destruct (mapM_mapM (λ kv : string * option json, pair (fst kv) <$> snd kv)
                (λ kv : string * json, pair (fst kv) <$> unmarshal_any ParseFloat (snd kv)) h
                (sort_members (map_to_list (marshal_any FormatFloat <$> m)))) as (ms & Hms & Hback).
    { apply Forall_forall. intros [k o] Hin.
      unfold sort_members in Hin. rewrite merge_sort_Permutation in Hin.
      apply elem_of_map_to_list in Hin. rewrite lookup_fmap in Hin.
      destruct (m !! k) as [v|] eqn:Hk; [|done]. injection Hin as <-.
      destruct (IH k v Hk (Hm k v Hk)) as (j & Hj & Hj').
      exists (k, j). unfold h. simpl. rewrite Hj. simpl. by rewrite Hj'. }
    exists (JObject ms). unfold sequence_members. rewrite Hms. simpl. split; [done|].
    rewrite Hback. simpl. do 2 f_equal. apply object_of_members_to_list.
    unfold sort_members. rewrite merge_sort_Permutation, map_to_list_fmap, <-list_fmap_compose.
    assert ((h ∘ prod_map id (marshal_any FormatFloat)) <$> map_to_list m = id <$> map_to_list m) as ->.
    { apply Forall_fmap_ext, Forall_forall. intros [k v] Hin%elem_of_map_to_list.
      destruct (IH k v Hin (Hm k v Hin)) as (j & Hj & Hj').
      unfold h. simpl. rewrite Hj. simpl. by rewrite Hj'. }
    by rewrite list_fmap_id.
  - (* []any *)
    intros Hl.
    destruct (mapM_mapM (marshal_any FormatFloat) (unmarshal_any ParseFloat) id l) as (js & Hjs & Hback).
    { rewrite forallb_forall in Hl. apply Forall_forall. intros v Hv.
      rewrite Forall_forall in IH. apply IH; [done|].
      apply Hl. by apply list_elem_of_In. }
    exists (JArray js). rewrite Hjs. simpl. rewrite Hback, list_fmap_id. done.
Qed.


Lemma marshal_omitempty_reads_back name v :
  reads_back FormatFloat ParseFloat v = true →
  ∃ ps, marshal_omitempty FormatFloat name v = Some ps ∧
    (v = VNil ∧ ps = [] ∨ ∃ j, ps = [(name, j)] ∧ unmarshal_any ParseFloat j = Some v).
Proof.
  intros Hv. destruct (unmarshal_marshal_any v Hv) as (j & Hj & Hj').
  destruct v; try (exists [(name, j)]; unfold marshal_omitempty;
    rewrite Hj; split; [done|right; by exists j]).
  exists []. split; [done|by left].
Qed.

Lemma marshal_omitempty_names name v ps :
  marshal_omitempty FormatFloat name v = Some ps →
  fst <$> ps = optional (present v) name.
Proof.
  unfold marshal_omitempty.
  destruct v; cbv iota beta; try (by intros [= <-]);
    (destruct (marshal_any _ _); simpl; by intros [= <-]).
Qed.

Lemma marshal_Number_valid n :
  isValidNumber n = true → marshal_Number n = Some (JNumber n).
Proof.
  intros Hn. unfold marshal_Number. by rewrite (isValidNumber_nonempty n Hn), Hn.
Qed.

Lemma unmarshal_Integer_formatInt cur c :
  in_Integerb c = true → unmarshal_Integer cur (JNumber (formatInt c)) = Some c.
Proof.
  intros Hc. unfold unmarshal_Integer. rewrite parseInt_formatInt. simpl. by rewrite Hc.
Qed.

(** *** The error object *)

#[local] Arguments unmarshal_Integer : simpl never.
#[local] Arguments formatInt : simpl never.

Lemma unmarshal_marshal_ResponseError e :
  in_Integerb (ResponseError.Code e) = true →
  ValidString (ResponseError.Message e) = true →
  reads_back FormatFloat ParseFloat (ResponseError.Data e) = true →
  ∃ j, marshal_ResponseError FormatFloat e = Some j ∧
       unmarshal_ResponseErrorPtr ParseFloat None j = Some (Some e).
Proof.
  destruct e as [c msg d]. simpl. intros Hc Hmsg Hd.
  destruct (marshal_omitempty_reads_back "data" d Hd) as (ps & Hps & Hcase).
  unfold marshal_ResponseError. simpl. rewrite Hps, (toValidUTF8_valid msg Hmsg). simpl.
  eexists; split; [done|].
  unfold unmarshal_ResponseErrorPtr, unmarshal_members.
  destruct Hcase as [[-> ->]|(j & -> & Hj)]; simpl.
  - by rewrite unmarshal_Integer_formatInt.
  - rewrite unmarshal_Integer_formatInt by done. simpl. by rewrite Hj.
Qed.

(** *** The shape of what [Marshal] writes *)

Lemma marshal_omitempty_shape name v ps :
  marshal_omitempty FormatFloat name v = Some ps →
  (v = VNil ∧ ps = []) ∨ (present v = true ∧ ∃ j, marshal_any FormatFloat v = Some j ∧ ps = [(name, j)]).
Proof.
  unfold marshal_omitempty.
  destruct v; cbv iota beta; try (intros [= <-]; by left);
    (destruct (marshal_any _ _) as [j|] eqn:Hj; simpl; [|done];
     intros [= <-]; right; split; [done|by exists j]).
Qed.

Lemma marshal_omitempty_error_shape e ps :
  marshal_omitempty_error FormatFloat e = Some ps →
  (e = None ∧ ps = []) ∨
  (∃ e' j, e = Some e' ∧ marshal_ResponseError FormatFloat e' = Some j ∧ ps = [("error", j)]).
Proof.
  destruct e as [e'|]; simpl.
  - destruct (marshal_ResponseError _ _) as [j|] eqn:Hj; simpl; [|done].
    intros [= <-]. right. by exists e', j.
  - intros [= <-]. by left.
Qed.


Lemma marshal_RequestMessage_shape r j :
  marshal_RequestMessage FormatFloat r = Some j →
  ∃ id ps, marshal_Number (RequestMessage.ID r) = Some id ∧
    marshal_omitempty FormatFloat "params" (RequestMessage.Params r) = Some ps ∧
    j = JObject ([("jsonrpc", JString (toValidUTF8 (JSONRPC (RequestMessage.AbstractMessage r))));
                  ("id", id);
                  ("method", JString (toValidUTF8 (RequestMessage.Method r)))] ++ ps).
Proof.
  unfold marshal_RequestMessage.
  destruct (marshal_Number _) as [id|]; simpl; [|done].
  destruct (marshal_omitempty _ _ _) as [ps|]; simpl; [|done].
  intros [= <-]. by exists id, ps.
Qed.

Lemma marshal_ResponseMessage_shape r j :
  marshal_ResponseMessage FormatFloat r = Some j →
  ∃ id res err, marshal_NumberPtr (ResponseMessage.ID r) = Some id ∧
    marshal_omitempty FormatFloat "result" (ResponseMessage.Result r) = Some res ∧
    marshal_omitempty_error FormatFloat (ResponseMessage.Error r) = Some err ∧
    j = JObject ([("jsonrpc", JString (toValidUTF8 (JSONRPC (ResponseMessage.AbstractMessage r))));
                  ("id", id)] ++ res ++ err).
Proof.
  unfold marshal_ResponseMessage.
  destruct (marshal_NumberPtr _) as [id|]; simpl; [|done].
  destruct (marshal_omitempty _ _ _) as [res|]; simpl; [|done].
  destruct (marshal_omitempty_error _ _) as [err|]; simpl; [|done].
  intros [= <-]. by exists id, res, err.
Qed.

Lemma marshal_NotificationMessage_shape n j :
  marshal_NotificationMessage FormatFloat n = Some j →
  ∃ ps, marshal_omitempty FormatFloat "params" (NotificationMessage.Params n) = Some ps ∧
    j = JObject ([("jsonrpc", JString (toValidUTF8 (JSONRPC (NotificationMessage.AbstractMessage n))));
                  ("method", JString (toValidUTF8 (NotificationMessage.Method n)))] ++ ps).
Proof.
  unfold marshal_NotificationMessage.
  destruct (marshal_omitempty _ _ _) as [ps|]; simpl; [|done].
  intros [= <-]. by exists ps.
Qed.

End CodecFacts.

(** ** The type tests *)

(** C3 (as amended). [IsLSPAny v] is true exactly when [v] itself is a
    string, a 32-bit signed or unsigned integer, a 64-bit float, a boolean,
    nil, a [[]any] or a [map[string]any], whatever the sequence or the
    mapping holds; in particular it is true of every value that satisfies
    the StructuredValue grammar recursively. *)
Theorem IsLSPAny_top_level (v : value) :
  (IsLSPAny v = true ↔ TopLevelLSP v) ∧ (StructuredValue v = true → IsLSPAny v = true).
Proof.
  split; [split|].
  - destruct v; simpl; intros H; try discriminate; constructor.
  - by destruct 1.
  - by destruct v.
Qed.

Lemma IsLSPAny_top_level_witness :
  StructuredValue (VArray [VString "a"; VInteger 1]) = true ∧
  IsLSPAny (VArray [VString "a"; VInteger 1]) = true.
Proof.
  split; [reflexivity|].
  apply (proj2 (IsLSPAny_top_level (VArray [VString "a"; VInteger 1]))). reflexivity.
Defined.

(** C3, the claim as written fails: the slice [[]any{1}] holds a Go
    [int], which is outside the grammar, and [IsLSPAny] accepts it. *)
Lemma IsLSPAny_accepts_ill_formed_array :
  IsLSPAny (VArray [VInt 1]) = true ∧ StructuredValue (VArray [VInt 1]) = false.
Proof. split; reflexivity. Qed.

(** C10. Whatever [IsLSPArrayOrObject] accepts, [IsLSPAny] accepts. *)
Theorem IsLSPArrayOrObject_IsLSPAny (v : value) :
  IsLSPArrayOrObject v = true → IsLSPAny v = true.
Proof.
  unfold IsLSPArrayOrObject, IsLSPAny. by destruct (TypeOf v).
Qed.

Lemma IsLSPArrayOrObject_IsLSPAny_witness :
  IsLSPArrayOrObject (VObject {[ "k" := VBool true ]}) = true ∧
  IsLSPAny (VObject {[ "k" := VBool true ]}) = true.
Proof.
  split; [reflexivity|].
  apply (IsLSPArrayOrObject_IsLSPAny (VObject {[ "k" := VBool true ]})). reflexivity.
Defined.

(** ** The error codes *)

(** C1. The error codes have the wire values of the catalogue, each a
    32-bit signed integer. *)
Theorem ErrorCodes_wire_values :
  ParseError = -32700 ∧ InvalidRequest = -32600 ∧ MethodNotFound = -32601 ∧
  InvalidParams = -32602 ∧ InternalError = -32603 ∧
  ServerNotInitialized = -32002 ∧ UnknownErrorCode = -32001 ∧
  RequestFailed = -32803 ∧ ServerCancelled = -32804 ∧
  ContentModified = -32801 ∧ RequestCancelled = -32800 ∧
  Forall in_Integer
    [ParseError; InvalidRequest; MethodNotFound; InvalidParams; InternalError;
     ServerNotInitialized; UnknownErrorCode; RequestFailed; ServerCancelled;
     ContentModified; RequestCancelled].
Proof.
  repeat split; try reflexivity.
  repeat constructor; unfold in_Integer; cbv; try discriminate.
Qed.

(** C9. The reserved-range constants bound the JSON-RPC reserved range
    [-32099, -32000] and the LSP reserved range [-32899, -32800], both
    ends included. *)
Theorem reserved_ranges (c : Integer) :
  JSONRPCReservedErrorRangeStart = -32099 ∧ JSONRPCReservedErrorRangeEnd = -32000 ∧
  LSPReservedErrorRangeStart = -32899 ∧ LSPReservedErrorRangeEnd = -32800 ∧
  (in_JSONRPCReserved c = true ↔ -32099 <= c <= -32000) ∧
  (in_LSPReserved c = true ↔ -32899 <= c <= -32800).
Proof.
  unfold in_JSONRPCReserved, in_LSPReserved,
    JSONRPCReservedErrorRangeStart, JSONRPCReservedErrorRangeEnd,
    LSPReservedErrorRangeStart, LSPReservedErrorRangeEnd.
  repeat split; try reflexivity; rewrite ?andb_true_iff; lia.
Qed.

(** ** The header *)

(** C8 (as amended). The content length of a [HeaderPart] is a Go [int]:
    the zero value has content length 0, every [int], negative ones
    included, is the content length of a [HeaderPart], and the invariant
    holds of exactly those whose field is not negative. *)
Theorem HeaderPart_ContentLength_is_int :
  content_length_nonneg zero_HeaderPart ∧
  (∀ h, wf_HeaderPart h → -2^63 <= ContentLength h < 2^63) ∧
  (∀ n, in_int n →
     ∃ h, wf_HeaderPart h ∧ ContentLength h = n ∧ (content_length_nonneg h ↔ 0 <= n)).
Proof.
  split; [|split].
  - unfold content_length_nonneg. simpl. lia.
  - intros h Hh. exact Hh.
  - intros n Hn. exists (mkHeaderPart n "").
    split; [exact Hn|]. split; [reflexivity|]. unfold content_length_nonneg. simpl. tauto.
Qed.

Lemma HeaderPart_ContentLength_is_int_witness :
  in_int 44 ∧ ∃ h, wf_HeaderPart h ∧ ContentLength h = 44 ∧ (content_length_nonneg h ↔ 0 <= 44).
Proof.
  split; [unfold in_int; lia|].
  apply (proj2 (proj2 HeaderPart_ContentLength_is_int) 44). unfold in_int; lia.
Defined.

(** C8, the claim as written fails: [HeaderPart{ContentLength: -1}] is a
    value of the type. *)
Lemma HeaderPart_negative_ContentLength :
  wf_HeaderPart (mkHeaderPart (-1) "") ∧ ¬ content_length_nonneg (mkHeaderPart (-1) "").
Proof.
  split.
  - unfold wf_HeaderPart, in_int. simpl. lia.
  - unfold content_length_nonneg. simpl. lia.
Qed.

(** ** The codec *)

Section CodecClaims.

Variable FormatFloat : Decimal → option string.
Variable ParseFloat : string → option Decimal.

#[local] Arguments marshal_any : simpl never.
#[local] Arguments unmarshal_any : simpl never.
#[local] Arguments unmarshal_ResponseErrorPtr : simpl never.
#[local] Arguments nesting_depth : simpl never.
#[local] Arguments toValidUTF8 : simpl never.


(** C7. An encoded notification has the members jsonrpc, method and,
    when present, params, and no member id. *)
Theorem Notification_has_no_id (n : NotificationMessage.t) (j : json) :
  Marshal FormatFloat (Notification n) = Some j →
  member "id" j = None ∧
  member_names j
  = (["jsonrpc"; "method"] ++ optional (present (NotificationMessage.Params n)) "params")%list.
Proof.
  simpl. intros H.
  apply marshal_NotificationMessage_shape in H as (ps & Hps & ->).
  split.
  - apply marshal_omitempty_shape in Hps as [[_ ->]|(_ & jp & _ & ->)]; reflexivity.
  - simpl. do 2 f_equal. exact (marshal_omitempty_names _ _ _ _ Hps).
Qed.

(** C5 (as amended). A [ResponseMessage] may hold a result, an error,
    both or neither; its encoding has a member result exactly when
    [Result] is not nil and a member error exactly when [Error] is not nil,
    so exactly one of the two members is written exactly when exactly one
    of the two fields is present. *)
Theorem Response_members_follow_fields (r : ResponseMessage.t) (j : json) :
  Marshal FormatFloat (Response r) = Some j →
  has_member "result" j = present (ResponseMessage.Result r) ∧
  has_member "error" j = (match ResponseMessage.Error r with Some _ => true | None => false end) ∧
  xorb (has_member "result" j) (has_member "error" j) = exactly_one_of_result_error r.
Proof.
  simpl. intros H.
  apply marshal_ResponseMessage_shape in H as (id & res & err & _ & Hres & Herr & ->).
  assert (has_member "result" (JObject ([("jsonrpc", JString (toValidUTF8 (JSONRPC (ResponseMessage.AbstractMessage r))));
            ("id", id)] ++ res ++ err)) = present (ResponseMessage.Result r)
          ∧ has_member "error" (JObject ([("jsonrpc", JString (toValidUTF8 (JSONRPC (ResponseMessage.AbstractMessage r))));
            ("id", id)] ++ res ++ err))
            = match ResponseMessage.Error r with Some _ => true | None => false end) as [H1 H2].
  { apply marshal_omitempty_shape in Hres as [[-> ->]|(-> & jr & _ & ->)];
      apply marshal_omitempty_error_shape in Herr as [[-> ->]|(e & je & -> & _ & ->)];
      split; reflexivity. }
  unfold exactly_one_of_result_error. by rewrite H1, H2.
Qed.

(** C2 (as amended). A message whose identifier is the text of a number
    (or nil, in a response), whose version, method and error message are
    valid UTF-8, whose error code is a 32-bit integer and whose payloads are
    built from nil, booleans, valid UTF-8 strings, floats that read back
    from their text, sequences and mappings with valid UTF-8 keys, is
    encoded; decoding the encoding into a struct of its kind gives the
    message again, field for field, unless the encoding nests deeper than
    10000 levels, which the decoder refuses. *)
Theorem Unmarshal_Marshal (m : Message) :
  round_trips FormatFloat ParseFloat m = true →
  ∃ j, Marshal FormatFloat m = Some j ∧
       Unmarshal ParseFloat (kind_of m) j = decoded_unless_too_deep j m.
Proof.
  destruct m as [[[s] id me p]|[[s] id res err]|[[s] me p]]; simpl.
  - intros [[[Hs Hid]%andb_true_iff Hme]%andb_true_iff Hp]%andb_true_iff.
    destruct (marshal_omitempty_reads_back _ _ "params" p Hp) as (ps & Hps & Hcase).
    unfold marshal_RequestMessage. simpl.
    rewrite (marshal_Number_valid id Hid), (toValidUTF8_valid s Hs), (toValidUTF8_valid me Hme).
    simpl. rewrite Hps. simpl.
    eexists; split; [done|].
    unfold unmarshal_RequestMessage, unmarshal_struct, decoded_unless_too_deep.
    destruct (maxNestingDepth <? nesting_depth _); [done|].
    unfold unmarshal_members.
    destruct Hcase as [[-> ->]|(j & -> & Hj)]; simpl; [done|]. by rewrite Hj.
  - intros [[[Hs Hid]%andb_true_iff Hres]%andb_true_iff Herr]%andb_true_iff.
    destruct (marshal_omitempty_reads_back _ _ "result" res Hres) as (ps & Hps & Hcase).
    assert (∃ jid, marshal_NumberPtr id = Some jid ∧
              unmarshal_NumberPtr None jid = Some id) as (jid & Hjid & Hjid').
    { destruct id as [n|]; simpl.
      - exists (JNumber n). by rewrite (marshal_Number_valid n Hid).
      - by exists JNull. }
    assert (∃ pe, marshal_omitempty_error FormatFloat err = Some pe ∧
              (err = None ∧ pe = [] ∨
               ∃ je, pe = [("error", je)] ∧
                     unmarshal_ResponseErrorPtr ParseFloat None je = Some err))
      as (pe & Hpe & Hecase).
    { destruct err as [e|]; simpl.
      - simpl in Herr. apply andb_true_iff in Herr as [[Hc Hmsg]%andb_true_iff Hd].
        destruct (unmarshal_marshal_ResponseError _ _ e Hc Hmsg Hd) as (je & Hje & Hje').
        rewrite Hje. simpl. eexists; split; [done|]. right. by exists je.
      - eexists; split; [done|]. by left. }
    unfold marshal_ResponseMessage. simpl. rewrite Hjid, (toValidUTF8_valid s Hs). simpl.
    rewrite Hps. simpl. rewrite Hpe. simpl. eexists; split; [done|].
    unfold unmarshal_ResponseMessage, unmarshal_struct, decoded_unless_too_deep.
    destruct (maxNestingDepth <? nesting_depth _); [done|].
    unfold unmarshal_members.
    destruct Hcase as [[-> ->]|(j & -> & Hj)];
      destruct Hecase as [[-> ->]|(je & -> & Hje)]; simpl;
      rewrite Hjid'; simpl; rewrite ?Hj; simpl; rewrite ?Hje; done.
  - intros [[Hs Hme]%andb_true_iff Hp]%andb_true_iff.
    destruct (marshal_omitempty_reads_back _ _ "params" p Hp) as (ps & Hps & Hcase).
    unfold marshal_NotificationMessage. simpl.
    rewrite (toValidUTF8_valid s Hs), (toValidUTF8_valid me Hme). rewrite Hps. simpl.
    eexists; split; [done|].
    unfold unmarshal_NotificationMessage, unmarshal_struct, decoded_unless_too_deep.
    destruct (maxNestingDepth <? nesting_depth _); [done|].
    unfold unmarshal_members.
    destruct Hcase as [[-> ->]|(j & -> & Hj)]; simpl; [done|]. by rewrite Hj.
Qed.


(** Whatever [strconv] does, the request whose [params] is the [Integer] 5
    is not read back: its [params] come back as a [float64], or not at all. *)
Lemma Integer_params_never_read_back (j : json) :
  Marshal FormatFloat ping_with_Integer = Some j →
  Unmarshal ParseFloat KRequest j ≠ Some ping_with_Integer.
Proof.
  intros [= <-]. unfold Unmarshal, unmarshal_RequestMessage, unmarshal_struct, unmarshal_members.
  simpl. unfold unmarshal_any.
  destruct (ParseFloat (formatInt 5)); simpl; unfold ping_with_Integer; congruence.
Qed.

End CodecClaims.

(** ** The codec on concrete messages *)


Lemma Notification_has_no_id_witness :
  ∃ j, Marshal FormatFloat_excerpt progress_notification = Some j ∧
       member "id" j = None ∧ member_names j = ["jsonrpc"; "method"; "params"].
Proof.
  eexists. split; [vm_compute; reflexivity|].
  refine (Notification_has_no_id FormatFloat_excerpt progress_record _ _).
  vm_compute; reflexivity.
Defined.

Lemma Response_members_follow_fields_witness :
  ∃ j, Marshal FormatFloat_excerpt method_not_found_response = Some j ∧
       has_member "result" j = false ∧ has_member "error" j = true ∧
       xorb (has_member "result" j) (has_member "error" j) = true.
Proof.
  eexists. split; [vm_compute; reflexivity|].
  refine (Response_members_follow_fields FormatFloat_excerpt method_not_found_record _ _).
  vm_compute; reflexivity.
Defined.

(** C5, the claim as written fails: the zero value [ResponseMessage{}]
    has neither a result nor an error, [response_with_both] has both, and
    the latter is encoded with both members. *)
Lemma Response_neither_or_both :
  exactly_one_of_result_error ResponseMessage.zero = false ∧
  exactly_one_of_result_error response_with_both = false ∧
  member_names <$> Marshal FormatFloat_excerpt (Response response_with_both)
  = Some ["jsonrpc"; "id"; "result"; "error"].
Proof. repeat split; reflexivity. Qed.

Lemma Unmarshal_Marshal_witness :
  round_trips FormatFloat_excerpt ParseFloat_excerpt ping_with_array = true ∧
  ∃ j, Marshal FormatFloat_excerpt ping_with_array = Some j ∧
       Unmarshal ParseFloat_excerpt KRequest j = Some ping_with_array.
Proof.
  split; [reflexivity|].
  destruct (Unmarshal_Marshal FormatFloat_excerpt ParseFloat_excerpt ping_with_array)
    as (j & Hj & Hdec); [reflexivity|].
  exists j. split; [exact Hj|].
  change KRequest with (kind_of ping_with_array).
  rewrite Hdec. vm_compute in Hj. injection Hj as <-. reflexivity.
Defined.

(** C2, the claim as written fails: a request whose [params] is the
    [Integer] 5 is valid, is encoded with [params] the number token [5],
    and is decoded with [params] the [float64] 5, not the [Integer]. *)
Lemma Integer_params_come_back_as_Decimal :
  ValidMessage ping_with_Integer = true ∧
  Marshal FormatFloat_excerpt ping_with_Integer
  = Some (JObject [("jsonrpc", JString "2.0"); ("id", JNumber "1");
                   ("method", JString "ping"); ("params", JNumber "5")]) ∧
  Unmarshal ParseFloat_excerpt KRequest
    (JObject [("jsonrpc", JString "2.0"); ("id", JNumber "1");
              ("method", JString "ping"); ("params", JNumber "5")])
  = Some (Request (RequestMessage.mk (mkAbstractMessage "2.0") "1" "ping"
                     (VDecimal 0x4014000000000000))) ∧
  Request (RequestMessage.mk (mkAbstractMessage "2.0") "1" "ping"
             (VDecimal 0x4014000000000000)) ≠ ping_with_Integer.
Proof. repeat split; try reflexivity. discriminate. Qed.



(** * Further properties of the declarations *)

(** ** The error codes among themselves *)

(** X1. No two named error codes share a value. *)
Theorem ErrorCodes_distinct : NoDup ErrorCodes.
Proof. apply (bool_decide_unpack _). vm_compute. reflexivity. Qed.

(** X2. The codes declared between the markers of a reserved range lie in
    that range and the others in neither; no integer lies in both ranges;
    the deprecated markers are the current ones. *)
Theorem ErrorCodes_by_range :
  (∀ c, c ∈ ErrorCodes →
     (in_JSONRPCReserved c = true ↔ c ∈ [ServerNotInitialized; UnknownErrorCode]) ∧
     (in_LSPReserved c = true ↔
        c ∈ [RequestFailed; ServerCancelled; ContentModified; RequestCancelled])) ∧
  (∀ c, in_JSONRPCReserved c && in_LSPReserved c = false) ∧
  ServerErrorStart = JSONRPCReservedErrorRangeStart ∧
  ServerErrorEnd = JSONRPCReservedErrorRangeEnd.
Proof.
  split; [|split; [|split; reflexivity]].
  - intros c Hc. unfold ErrorCodes in Hc.
    repeat (apply elem_of_cons in Hc as [->|Hc]); try (by apply elem_of_nil in Hc);
      split; (split; [intros H; vm_compute in H; try discriminate; set_solver
                     |intros H; try reflexivity;
                      repeat (apply elem_of_cons in H as [H|H]; [discriminate H|]);
                      by apply elem_of_nil in H]).
  - intros c. unfold in_JSONRPCReserved, in_LSPReserved,
      JSONRPCReservedErrorRangeStart, JSONRPCReservedErrorRangeEnd,
      LSPReservedErrorRangeStart, LSPReservedErrorRangeEnd.
    apply not_true_is_false. rewrite !andb_true_iff, !Z.leb_le. lia.
Qed.

Lemma ErrorCodes_by_range_witness :
  in_LSPReserved RequestCancelled = true ∧ in_JSONRPCReserved RequestCancelled = false.
Proof.
  assert (HIn : RequestCancelled ∈ ErrorCodes).
  { unfold ErrorCodes. repeat first [apply list_elem_of_here | apply list_elem_of_further]. }
  destruct (proj1 ErrorCodes_by_range RequestCancelled HIn) as [_ H2].
  split; [|reflexivity].
  apply H2. repeat first [apply list_elem_of_here | apply list_elem_of_further].
Defined.

(** ** Induction over documents *)

Lemma jsize_elem (l : list json) j : j ∈ l → (jsize j < jsize (JArray l))%nat.
Proof. simpl. induction 1; simpl; lia. Qed.

Lemma jsize_member (ms : list (string * json)) kv :
  kv ∈ ms → (jsize (snd kv) < jsize (JObject ms))%nat.
Proof. simpl. induction 1; simpl; lia. Qed.

Lemma json_ind' (P : json → Prop) :
  P JNull → (∀ b, P (JBool b)) → (∀ s, P (JNumber s)) → (∀ s, P (JString s)) →
  (∀ l, Forall P l → P (JArray l)) →
  (∀ ms, Forall (λ kv, P (snd kv)) ms → P (JObject ms)) →
  ∀ j, P j.
Proof.
  intros Hnull Hb Hn Hs Ha Ho j.
  remember (jsize j) as n eqn:Hsz. revert j Hsz.
  induction n as [n IH] using lt_wf_ind. intros j ->.
  destruct j; auto.
  - apply Ha, Forall_forall. intros j Hj. eapply IH; [|reflexivity]. by apply jsize_elem.
  - apply Ho, Forall_forall. intros kv Hkv. eapply IH; [|reflexivity]. by apply jsize_member.
Qed.

Lemma foldl_insert_lookup (kvs : list (string * value)) (a : gmap string value) k v :
  foldl (λ m kv, <[fst kv := snd kv]> m) a kvs !! k = Some v →
  (k, v) ∈ kvs ∨ a !! k = Some v.
Proof.
  revert a. induction kvs as [|[k' v'] kvs IH]; intros a; simpl; [by right|].
  intros [Hin|Ha]%IH.
  - left. by apply list_elem_of_further.
  - destruct (decide (k' = k)) as [->|Hne].
    + rewrite lookup_insert_eq in Ha. injection Ha as ->. left. apply list_elem_of_here.
    + rewrite lookup_insert_ne in Ha by done. by right.
Qed.

Lemma object_of_members_lookup (kvs : list (string * value)) k v :
  object_of_members kvs !! k = Some v → (k, v) ∈ kvs.
Proof.
  intros [H|H]%foldl_insert_lookup; [done|]. by rewrite lookup_empty in H.
Qed.

Lemma Forall2_Forall_r {A B} (R : A → B → Prop) (Q : B → Prop) (l : list A) (k : list B) :
  Forall2 R l k → Forall (λ x, ∀ y, R x y → Q y) l → Forall Q k.
Proof.
  induction 1 as [|x y l k HR _ IH]; intros Hl; [constructor|].
  apply Forall_cons in Hl as [Hx Hl]. constructor; auto.
Qed.

(** ** What decoding stores in an interface *)

Section DecodedPayloads.

Variable FormatFloat : Decimal → option string.
Variable ParseFloat : string → option Decimal.

(** X3. Every value [Unmarshal] stores in an [any] field satisfies the
    StructuredValue grammar at every depth, and [IsLSPAny] accepts it. *)
Theorem unmarshal_any_StructuredValue (j : json) (v : value) :
  unmarshal_any ParseFloat j = Some v →
  StructuredValue v = true ∧ IsLSPAny v = true.
Proof.
  intros H. assert (Hs : StructuredValue v = true); [|split; [done|by destruct v]].
  revert v H.
  induction j as [|b|s|s|l IH|ms IH] using json_ind'; simpl; intros v H.
  - by injection H as <-.
  - by injection H as <-.
  - destruct (ParseFloat s); simpl in H; [|done]. by injection H as <-.
  - by injection H as <-.
  - destruct (mapM _ l) as [vs|] eqn:Hvs; simpl in H; [|done]. injection H as <-.
    simpl. apply forallb_forall. intros v Hv%list_elem_of_In. revert v Hv.
    apply Forall_forall. apply mapM_Some in Hvs.
    by eapply Forall2_Forall_r.
  - destruct (mapM _ ms) as [kvs|] eqn:Hkvs; simpl in H; [|done]. injection H as <-.
    simpl. apply map_forallb_Forall. intros k v Hk%object_of_members_lookup.
    apply mapM_Some in Hkvs.
    assert (Forall (λ kv, StructuredValue (snd kv) = true) kvs) as Hall.
    { eapply Forall2_Forall_r; [exact Hkvs|].
      eapply Forall_impl; [exact IH|]. simpl. intros [k' j'] Hj [k'' v''] Hv. simpl in *.
      destruct (unmarshal_any ParseFloat j') as [w|]; simpl in Hv; [|done].
      injection Hv as <- <-. by apply Hj. }
    rewrite Forall_forall in Hall. exact (Hall _ Hk).
Qed.

(** X4. A decoded value is accepted by [IsLSPArrayOrObject] exactly when
    the document it was read from is an array or an object. *)
Theorem unmarshal_any_IsLSPArrayOrObject (j : json) (v : value) :
  unmarshal_any ParseFloat j = Some v →
  IsLSPArrayOrObject v = is_container j.
Proof.
  destruct j; simpl; intros H.
  - by injection H as <-.
  - by injection H as <-.
  - destruct (ParseFloat lit); simpl in H; [|done]. by injection H as <-.
  - by injection H as <-.
  - destruct (mapM _ l); simpl in H; [|done]. by injection H as <-.
  - destruct (mapM _ members); simpl in H; [|done]. by injection H as <-.
Qed.

End DecodedPayloads.

(** ** When encoding is refused *)

Section Encodable.

Variable FormatFloat : Decimal → option string.

Lemma sequence_members_is_Some {A} (l : list (string * option A)) :
  is_Some (sequence_members l) ↔ Forall (λ kv, is_Some (snd kv)) l.
Proof.
  unfold sequence_members. rewrite mapM_is_Some. apply Forall_iff.
  intros [k o]. simpl. by rewrite fmap_is_Some.
Qed.

Lemma marshalable_is_Some (v : value) :
  is_Some (marshal_any FormatFloat v) ↔ marshalable FormatFloat v = true.
Proof.
  induction v as [|s|n|n|f|b|m IH|l IH|n| | |] using value_ind'; simpl;
    try (split; [done|by eauto]).
  - rewrite fmap_is_Some. destruct (FormatFloat f); split; try done; by eauto.
  - rewrite fmap_is_Some, sequence_members_is_Some, map_forallb_Forall.
    rewrite (Forall_coerce_names_snd is_Some).
    unfold sort_members. rewrite merge_sort_Permutation.
    rewrite Forall_forall. split.
    + intros H k v Hk. apply (IH k v Hk). apply (H (k, marshal_any FormatFloat v)).
      apply elem_of_map_to_list. by rewrite lookup_fmap, Hk.
    + intros H [k o] Hin%elem_of_map_to_list. rewrite lookup_fmap in Hin.
      destruct (m !! k) as [v|] eqn:Hk; [|done]. injection Hin as <-.
      simpl. apply (IH k v Hk). exact (H k v Hk).
  - rewrite fmap_is_Some, mapM_is_Some, forallb_forall, Forall_forall.
    rewrite Forall_forall in IH. split.
    + intros H v Hv%list_elem_of_In. apply IH; [done|]. by apply H.
    + intros H v Hv. apply IH; [done|]. by apply H, list_elem_of_In.
Qed.

Lemma StructuredValue_marshalable (v : value) :
  StructuredValue v = true →
  marshalable FormatFloat v = true ↔ floats_have_text FormatFloat v = true.
Proof.
  induction v as [|s|n|n|f|b|m IH|l IH|n| | |] using value_ind'; simpl; try done.
  - intros Hm%map_forallb_Forall. rewrite !map_forallb_Forall.
    split; intros H k v Hk; apply (IH k v Hk (Hm k v Hk)), (H k v Hk).
  - intros Hl. rewrite !forallb_forall. rewrite forallb_forall in Hl.
    rewrite Forall_forall in IH.
    split; intros H v Hv; apply (IH v (proj2 (list_elem_of_In _ _) Hv) (Hl v Hv)), (H v Hv).
Qed.

(** X5. For a value that satisfies the StructuredValue grammar at every
    depth, [Marshal] returns an error exactly when some float in it has no
    text (NaN or an infinity), and a document otherwise. *)
Theorem StructuredValue_marshal_any (v : value) :
  StructuredValue v = true →
  (is_Some (marshal_any FormatFloat v) ↔ floats_have_text FormatFloat v = true) ∧
  (marshal_any FormatFloat v = None ↔ floats_have_text FormatFloat v = false).
Proof.
  intros Hv.
  pose proof (marshalable_is_Some v) as H.
  rewrite (StructuredValue_marshalable v Hv) in H. split; [exact H|].
  rewrite eq_None_not_Some, H. by destruct (floats_have_text FormatFloat v).
Qed.

Lemma marshal_Number_is_Some n :
  is_Some (marshal_Number n) ↔ ID_encodable n = true.
Proof.
  unfold marshal_Number, ID_encodable.
  destruct (String.eqb n ""); simpl; [by eauto|].
  destruct (isValidNumber n); split; try done; by eauto.
Qed.

Lemma marshal_NumberPtr_is_Some id :
  is_Some (marshal_NumberPtr id)
  ↔ match id with Some n => ID_encodable n | None => true end = true.
Proof. destruct id; simpl; [apply marshal_Number_is_Some|by eauto]. Qed.

Lemma marshal_omitempty_is_Some name v :
  is_Some (marshal_omitempty FormatFloat name v) ↔ marshalable FormatFloat v = true.
Proof.
  rewrite <-marshalable_is_Some. unfold marshal_omitempty.
  destruct v; try (simpl; split; by eauto);
    (destruct (marshal_any FormatFloat _); simpl; split; try done; by eauto).
Qed.

Lemma marshal_ResponseError_is_Some e :
  is_Some (marshal_ResponseError FormatFloat e)
  ↔ marshalable FormatFloat (ResponseError.Data e) = true.
Proof.
  rewrite <-(marshal_omitempty_is_Some "data"). unfold marshal_ResponseError.
  destruct (marshal_omitempty _ _ _); simpl; split; try done; by eauto.
Qed.

Lemma marshal_omitempty_error_is_Some e :
  is_Some (marshal_omitempty_error FormatFloat e)
  ↔ match e with Some e => marshalable FormatFloat (ResponseError.Data e) | None => true end
    = true.
Proof.
  destruct e as [e|]; simpl; [|by eauto].
  rewrite <-marshal_ResponseError_is_Some.
  destruct (marshal_ResponseError _ _); simpl; split; try done; by eauto.
Qed.

(** X6. A message is encoded unless its identifier is a text that is
    neither empty nor a number, or one of its payloads cannot be written;
    the version and the method are never a cause of refusal. *)
Theorem Marshal_is_Some (m : Message) :
  is_Some (Marshal FormatFloat m) ↔ encodable FormatFloat m = true.
Proof.
  destruct m as [r|r|n]; simpl.
  - unfold marshal_RequestMessage.
    rewrite andb_true_iff, <-marshal_Number_is_Some, <-(marshal_omitempty_is_Some "params").
    destruct (marshal_Number _); simpl; [|rewrite !is_Some_alt; tauto].
    destruct (marshal_omitempty _ _ _); simpl; rewrite !is_Some_alt; tauto.
  - unfold marshal_ResponseMessage.
    rewrite !andb_true_iff, <-marshal_NumberPtr_is_Some,
      <-(marshal_omitempty_is_Some "result"), <-marshal_omitempty_error_is_Some.
    destruct (marshal_NumberPtr _); simpl; [|rewrite !is_Some_alt; tauto].
    destruct (marshal_omitempty _ _ _); simpl; [|rewrite !is_Some_alt; tauto].
    destruct (marshal_omitempty_error _ _); simpl; rewrite !is_Some_alt; tauto.
  - unfold marshal_NotificationMessage.
    rewrite <-(marshal_omitempty_is_Some "params").
    destruct (marshal_omitempty _ _ _); simpl; rewrite !is_Some_alt; tauto.
Qed.

End Encodable.

(** ** The identifier on the wire *)

Lemma marshal_Number_Some n j :
  marshal_Number n = Some j →
  j = ID_token n ∧ isValidNumber (ID_written n) = true.
Proof.
  unfold marshal_Number, ID_token, ID_written.
  destruct (String.eqb n ""); [by intros [= <-]|].
  destruct (isValidNumber n) eqn:Hn; [|done]. by intros [= <-].
Qed.

Section Identifier.

Variable FormatFloat : Decimal → option string.
Variable ParseFloat : string → option Decimal.

#[local] Arguments marshal_any : simpl never.
#[local] Arguments unmarshal_any : simpl never.
#[local] Arguments unmarshal_ResponseErrorPtr : simpl never.
#[local] Arguments nesting_depth : simpl never.
#[local] Arguments toValidUTF8 : simpl never.

(** X7. An encoded request or response always has a member [id]: the
    number token of the identifier, [0] for the empty identifier, [null]
    for the nil identifier of a response; when it is a number token, its
    text is a JSON number. *)
Theorem Marshal_id_member (m : Message) (j : json) :
  Marshal FormatFloat m = Some j →
  member "id" j = id_member m ∧
  (∀ s, member "id" j = Some (JNumber s) → isValidNumber s = true).
Proof.
  destruct m as [r|r|n]; simpl; intros H.
  - apply marshal_RequestMessage_shape in H as (jid & ps & Hjid & _ & ->).
    apply marshal_Number_Some in Hjid as [-> Hv]. split; [done|].
    simpl. by intros s [= <-].
  - apply marshal_ResponseMessage_shape in H as (jid & pr & pe & Hjid & _ & _ & ->).
    destruct (ResponseMessage.ID r) as [n|]; simpl in Hjid.
    + apply marshal_Number_Some in Hjid as [-> Hv]. split; [done|].
      simpl. by intros s [= <-].
    + injection Hjid as <-. split; [done|]. simpl. by intros s [=].
  - apply marshal_NotificationMessage_shape in H as (ps & Hps & ->).
    assert (member "id" (JObject ([("jsonrpc",
                JString (toValidUTF8 (JSONRPC (NotificationMessage.AbstractMessage n))));
              ("method", JString (toValidUTF8 (NotificationMessage.Method n)))] ++ ps)) = None)
      as ->.
    { apply marshal_omitempty_shape in Hps as [[_ ->]|(_ & jp & _ & ->)]; reflexivity. }
    split; [done|]. by intros s [=].
Qed.

(** X8. A request whose version and method are valid UTF-8, whose
    identifier is empty or a number and whose payload reads back is
    decoded from its encoding to itself with the identifier as it was
    written, unchanged except that the empty identifier comes back as [0];
    an encoding nested deeper than 10000 levels is refused instead. *)
Theorem Request_identifier_written (r : RequestMessage.t) :
  ValidString (JSONRPC (RequestMessage.AbstractMessage r)) = true →
  ValidString (RequestMessage.Method r) = true →
  ID_encodable (RequestMessage.ID r) = true →
  reads_back FormatFloat ParseFloat (RequestMessage.Params r) = true →
  ∃ j, Marshal FormatFloat (Request r) = Some j ∧
       Unmarshal ParseFloat KRequest j
       = decoded_unless_too_deep j
           (Request (RequestMessage.mk (RequestMessage.AbstractMessage r)
                       (ID_written (RequestMessage.ID r))
                       (RequestMessage.Method r) (RequestMessage.Params r))).
Proof.
  destruct r as [[s] id me p]. simpl. intros Hs Hme Hid Hp.
  apply marshal_Number_is_Some in Hid as [jid Hjid].
  destruct (marshal_Number_Some _ _ Hjid) as [-> _].
  destruct (marshal_omitempty_reads_back _ _ "params" p Hp) as (ps & Hps & Hcase).
  unfold marshal_RequestMessage. simpl.
  rewrite Hjid, (toValidUTF8_valid s Hs), (toValidUTF8_valid me Hme). simpl.
  rewrite Hps. simpl.
  eexists; split; [done|].
  unfold unmarshal_RequestMessage, unmarshal_struct, decoded_unless_too_deep.
  destruct (maxNestingDepth <? nesting_depth _); [done|].
  unfold unmarshal_members, ID_token, ID_written.
  destruct Hcase as [[-> ->]|(j & -> & Hj)]; simpl; [done|]. by rewrite Hj.
Qed.

(** X9. The decoder does not tell a notification from a request: the
    encoding of a notification that reads back is decoded into a request
    with the empty identifier, and the encoding of a request that reads
    back into a notification, the identifier being dropped; in both cases
    an encoding nested deeper than 10000 levels is refused instead. *)
Theorem kinds_are_not_told_apart (n : NotificationMessage.t) (r : RequestMessage.t) :
  (round_trips FormatFloat ParseFloat (Notification n) = true →
   ∃ j, Marshal FormatFloat (Notification n) = Some j ∧
        Unmarshal ParseFloat KRequest j
        = decoded_unless_too_deep j
            (Request (RequestMessage.mk (NotificationMessage.AbstractMessage n) ""
                        (NotificationMessage.Method n) (NotificationMessage.Params n)))) ∧
  (round_trips FormatFloat ParseFloat (Request r) = true →
   ∃ j, Marshal FormatFloat (Request r) = Some j ∧
        Unmarshal ParseFloat KNotification j
        = decoded_unless_too_deep j
            (Notification (NotificationMessage.mk (RequestMessage.AbstractMessage r)
                             (RequestMessage.Method r) (RequestMessage.Params r)))).
Proof.
  split.
  - destruct n as [[s] me p]. simpl.
    intros [[Hs Hme]%andb_true_iff Hp]%andb_true_iff.
    destruct (marshal_omitempty_reads_back _ _ "params" p Hp) as (ps & Hps & Hcase).
    unfold marshal_NotificationMessage. simpl.
    rewrite (toValidUTF8_valid s Hs), (toValidUTF8_valid me Hme), Hps. simpl.
    eexists; split; [done|].
    unfold unmarshal_RequestMessage, unmarshal_struct, decoded_unless_too_deep.
    destruct (maxNestingDepth <? nesting_depth _); [done|].
    unfold unmarshal_members.
    destruct Hcase as [[-> ->]|(j & -> & Hj)]; simpl; [done|]. by rewrite Hj.
  - destruct r as [[s] id me p]. simpl.
    intros [[[Hs Hid]%andb_true_iff Hme]%andb_true_iff Hp]%andb_true_iff.
    destruct (marshal_omitempty_reads_back _ _ "params" p Hp) as (ps & Hps & Hcase).
    unfold marshal_RequestMessage. simpl.
    rewrite (marshal_Number_valid id Hid), (toValidUTF8_valid s Hs), (toValidUTF8_valid me Hme).
    simpl. rewrite Hps. simpl.
    eexists; split; [done|].
    unfold unmarshal_NotificationMessage, unmarshal_struct, decoded_unless_too_deep.
    destruct (maxNestingDepth <? nesting_depth _); [done|].
    unfold unmarshal_members.
    destruct Hcase as [[-> ->]|(j & -> & Hj)]; simpl; [done|]. by rewrite Hj.
Qed.

End Identifier.

(** ** Members the decoder skips or refuses *)

Lemma unmarshal_members_skip {T} (set : T → string * json → option T)
    (ms1 ms2 : list (string * json)) (kv : string * json) (init : T) :
  (∀ t, set t kv = Some t) →
  unmarshal_members set (ms1 ++ kv :: ms2) init = unmarshal_members set (ms1 ++ ms2) init.
Proof.
  intros Hskip. unfold unmarshal_members. rewrite !foldl_app. simpl.
  destruct (foldl _ (Some init) ms1) as [t|]; simpl; [by rewrite Hskip|done].
Qed.

Lemma nesting_depth_skip (ms1 ms2 : list (string * json)) (kv : string * json) :
  nesting_depth (JObject (ms1 ++ ms2)) <= nesting_depth (JObject (ms1 ++ kv :: ms2)).
Proof. simpl. induction ms1; simpl; lia. Qed.

Lemma unmarshal_struct_skip {T} (set : T → string * json → option T) (zero : T)
    (ms1 ms2 : list (string * json)) (kv : string * json) :
  (∀ t, set t kv = Some t) →
  nesting_depth (JObject (ms1 ++ kv :: ms2)) <= maxNestingDepth →
  unmarshal_struct set zero (JObject (ms1 ++ kv :: ms2))
  = unmarshal_struct set zero (JObject (ms1 ++ ms2)).
Proof.
  intros Hskip Hdepth. unfold unmarshal_struct.
  pose proof (nesting_depth_skip ms1 ms2 kv) as Hle.
  destruct (Z.ltb_spec maxNestingDepth (nesting_depth (JObject (ms1 ++ kv :: ms2)))); [lia|].
  destruct (Z.ltb_spec maxNestingDepth (nesting_depth (JObject (ms1 ++ ms2)))); [lia|].
  by apply unmarshal_members_skip.
Qed.

Section Skipping.

Variable ParseFloat : string → option Decimal.

(** X10. In a document the scanner accepts (nested at most 10000
    levels), a member whose name selects no field of the struct is
    skipped, wherever it stands: the document decodes as it does without
    it. *)
Theorem unknown_member_is_skipped (k : MessageKind) (key : string) (v : json)
    (ms1 ms2 : list (string * json)) :
  field_of (fields_of_kind k) key = None →
  nesting_depth (JObject (ms1 ++ (key, v) :: ms2)) <= maxNestingDepth →
  Unmarshal ParseFloat k (JObject (ms1 ++ (key, v) :: ms2))
  = Unmarshal ParseFloat k (JObject (ms1 ++ ms2)).
Proof.
  intros Hkey Hdepth. destruct k; simpl in Hkey |- *;
    unfold unmarshal_RequestMessage, unmarshal_ResponseMessage,
      unmarshal_NotificationMessage;
    f_equal; apply unmarshal_struct_skip; try done; intros [];
    unfold set_RequestMessage, set_ResponseMessage, set_NotificationMessage;
    simpl fst; by rewrite Hkey.
Qed.

(** X11. The [code] of an error is read when it is an integer of 32 bits
    and refused otherwise: an error object whose code is the decimal text
    of [n] decodes exactly when [n] is in the range of [int32]. *)
Theorem error_code_bounds (n : Z) (msg : string) :
  unmarshal_ResponseErrorPtr ParseFloat None
    (JObject [("code", JNumber (formatInt n)); ("message", JString msg)])
  = (if in_Integerb n then Some (Some (ResponseError.mk n msg VNil)) else None) ∧
  (∀ cur s c, unmarshal_Integer cur (JNumber s) = Some c → in_Integer c).
Proof.
  split.
  - unfold unmarshal_ResponseErrorPtr, unmarshal_members. simpl foldl.
    rewrite parseInt_formatInt. simpl.
    by destruct (in_Integerb n).
  - intros cur s c. simpl. destruct (parseInt s) as [z|]; simpl; [|done].
    destruct (in_Integerb z) eqn:Hz; [|done]. intros [= <-].
    unfold in_Integerb in Hz. apply andb_true_iff in Hz as [H1 H2].
    unfold in_Integer. lia.
Qed.

End Skipping.

(** ** The parameter structs on the wire *)

Section Params.

Variable FormatFloat : Decimal → option string.

(** X12. The parameters of a cancellation are written as an object with
    the single member [id] and read back as they were; they are written
    whenever the request they name is, with the token the request has as
    its [id]. *)
Theorem CancelParams_round_trip (r : RequestMessage.t) (j : json) :
  Marshal FormatFloat (Request r) = Some j →
  ∃ jc, marshal_CancelParams (CancelParams.mk (RequestMessage.ID r)) = Some jc ∧
        member_names jc = ["id"] ∧
        member "id" jc = member "id" j ∧
        unmarshal_CancelParams jc
        = Some (CancelParams.mk (ID_written (RequestMessage.ID r))).
Proof.
  simpl. intros H.
  apply marshal_RequestMessage_shape in H as (jid & ps & Hjid & _ & ->).
  unfold marshal_CancelParams. simpl. rewrite Hjid. simpl.
  apply marshal_Number_Some in Hjid as [-> Hv].
  eexists; split; [done|]. repeat split.
Qed.

End Params.

Section ProgressParamsFacts.

Variable T : Type.
Variable zero_T : T.
Variable marshal_T : T → option json.
Variable unmarshal_T : T → json → option T.

(** X13. Progress parameters whose token is a number and whose value is
    written to a document that reads back to it are written with the
    members [token] and [value], in this order, and read back as they
    were, unless the document written nests deeper than 10000 levels,
    which the decoder refuses. *)
Theorem ProgressParams_round_trip (p : ProgressParams.t T) (jv : json) :
  isValidNumber (ProgressParams.Token p) = true →
  marshal_T (ProgressParams.Value p) = Some jv →
  unmarshal_T zero_T jv = Some (ProgressParams.Value p) →
  ∃ j, marshal_ProgressParams T marshal_T p = Some j ∧
       member_names j = ["token"; "value"] ∧
       unmarshal_ProgressParams T zero_T unmarshal_T j = decoded_unless_too_deep j p.
Proof.
  destruct p as [tok v]. simpl. intros Htok Hv Hback.
  unfold marshal_ProgressParams. simpl.
  rewrite (marshal_Number_valid tok Htok). simpl. rewrite Hv. simpl.
  eexists; split; [done|]. split; [done|].
  unfold unmarshal_ProgressParams, unmarshal_struct, decoded_unless_too_deep.
  destruct (maxNestingDepth <? nesting_depth _); [done|].
  unfold unmarshal_members. simpl.
  unfold set_ProgressParams. simpl. by rewrite Hback.
Qed.

End ProgressParamsFacts.

(** ** Maps on the wire *)

Lemma sequence_members_Some {A} (l : list (string * option A)) (ms : list (string * A)) :
  sequence_members l = Some ms → l = prod_map id Some <$> ms.
Proof.
  unfold sequence_members. intros H%mapM_Some.
  induction H as [|[k o] [k' x] l ms Hx _ IH]; [done|].
  simpl in *. destruct o as [y|]; simpl in Hx; [|done]. injection Hx as -> ->.
  by rewrite IH.
Qed.

Lemma find_member_NoDup {A} (ms : list (string * A)) k x :
  NoDup (ms.*1) → (k, x) ∈ ms →
  find (λ kv, String.eqb k (fst kv)) ms = Some (k, x).
Proof.
  induction ms as [|[k' x'] ms IH]; simpl; intros Hnd Hin; [by apply elem_of_nil in Hin|].
  apply NoDup_cons in Hnd as [Hk' Hnd].
  apply elem_of_cons in Hin as [[= <- <-]|Hin].
  - by rewrite String.eqb_refl.
  - destruct (String.eqb_spec k k') as [->|_]; [|by apply IH].
    destruct Hk'. apply list_elem_of_fmap. by exists (k', x).
Qed.

Lemma find_member_None {A} (ms : list (string * A)) k :
  k ∉ ms.*1 → find (λ kv, String.eqb k (fst kv)) ms = None.
Proof.
  induction ms as [|[k' x'] ms IH]; simpl; intros Hk; [done|].
  apply not_elem_of_cons in Hk as [Hne Hk].
  destruct (String.eqb_spec k k') as [->|_]; [done|by apply IH].
Qed.

Lemma Sorted_NoDup_strict {A} (R R' : relation A) (l : list A) :
  (∀ a b, R a b → a ≠ b → R' a b) → Sorted R l → NoDup l → Sorted R' l.
Proof.
  intros HR. induction 1 as [|a l Hs IH Hhd]; intros Hnd; [constructor|].
  apply NoDup_cons in Hnd as [Ha Hnd]. constructor; [by apply IH|].
  destruct Hhd as [|b l' Hab]; constructor. apply HR; [done|].
  intros ->. apply Ha, list_elem_of_here.
Qed.

Lemma leb_neq_ltb (a b : string) : String.leb a b = true → a ≠ b → String.ltb a b = true.
Proof.
  unfold String.leb, String.ltb. destruct (String.compare a b) eqn:Hc; try done.
  apply String.compare_eq_iff in Hc. by intros _ [].
Qed.

Lemma key_le_total {A} : Total (@key_le A).
Proof.
  intros [k x] [k' x']. unfold key_le. simpl.
  destruct (String.leb_total k k') as [H|H]; rewrite H; [by left|by right].
Qed.

Section MapsOnTheWire.

Variable FormatFloat : Decimal → option string.

(** X14. A map whose keys are valid UTF-8 is written as an object that
    has one member for each key of the map and no other, in strictly
    ascending byte-wise order of the names, the member of a key being the
    encoding of the value at that key. *)
Theorem marshal_object_members (m : gmap string value) (j : json) :
  map_Forall (λ k _, ValidString k = true) m →
  marshal_any FormatFloat (VObject m) = Some j →
  Sorted (λ a b, String.ltb a b = true) (member_names j) ∧
  (∀ k, member k j = m !! k ≫= marshal_any FormatFloat).
Proof.
  intros Hkeys.
  simpl. destruct (sequence_members _) as [ms|] eqn:Hms; simpl; [|done]. intros [= <-].
  apply sequence_members_Some in Hms.
  rewrite coerce_names_valid in Hms
    by apply (sorted_members_keys _ m (λ k, ValidString k = true)), Hkeys.
  assert (Hperm : prod_map id Some <$> ms ≡ₚ map_to_list (marshal_any FormatFloat <$> m)).
  { rewrite <-Hms. apply merge_sort_Permutation. }
  assert (Hfst : (prod_map id Some <$> ms).*1 = ms.*1).
  { rewrite <-list_fmap_compose. by apply list_fmap_ext; intros ? []. }
  assert (Hnd : NoDup (ms.*1)).
  { rewrite <-Hfst, Hperm. apply NoDup_fst_map_to_list. }
  split.
  - simpl.
    apply (Sorted_NoDup_strict (λ a b, String.leb a b = true)); [apply leb_neq_ltb| |done].
    rewrite <-Hfst.
    apply (Sorted_fmap fst key_le);
      [|rewrite <-Hms; apply (@Sorted_merge_sort _ _ _ key_le_total)].
    intros [k o] [k' o']. unfold key_le. simpl. by destruct (String.leb k k').
  - intros k. simpl.
    destruct (m !! k) as [v|] eqn:Hk; simpl.
    + assert ((k, marshal_any FormatFloat v) ∈ prod_map id Some <$> ms) as Hin.
      { rewrite Hperm. apply elem_of_map_to_list. by rewrite lookup_fmap, Hk. }
      apply list_elem_of_fmap in Hin as ([k' jv] & [= <- Hjv] & Hin).
      by rewrite (find_member_NoDup ms k jv Hnd Hin), Hjv.
    + rewrite find_member_None; [done|].
      rewrite <-Hfst, Hperm. intros Hin.
      apply list_elem_of_fmap in Hin as ([k' o] & Hk' & Hin%elem_of_map_to_list).
      simpl in Hk'. subst k'. by rewrite lookup_fmap, Hk in Hin.
Qed.

End MapsOnTheWire.

(** ** Number tokens on the wire *)

Lemma skip_digits_uint d : skip_digits (NilEmpty.string_of_uint d) = "".
Proof. induction d; simpl; auto. Qed.

Lemma to_uint_nzhead p : Decimal.nzhead (Pos.to_uint p) = Pos.to_uint p.
Proof.
  pose proof (DecimalPos.Unsigned.to_of (Pos.to_uint p)) as H.
  rewrite DecimalPos.Unsigned.of_to in H. simpl in H. unfold Decimal.unorm in H.
  destruct (Decimal.nzhead (Pos.to_uint p)) eqn:Hnz; try done.
  by destruct (DecimalPos.Unsigned.to_uint_nonzero p).
Qed.

Lemma isValidNumber_uint d :
  Decimal.nzhead d = d → d ≠ Decimal.Nil →
  isValidNumber (NilEmpty.string_of_uint d) = true ∧
  isValidNumber (String "-" (NilEmpty.string_of_uint d)) = true.
Proof.
  intros Hnz Hnil. destruct d; try done;
    try (simpl; rewrite skip_digits_uint; done).
  by destruct (DecimalFacts.nzhead_nonzero (Decimal.D0 d) d).
Qed.

Lemma isValidNumber_formatInt n : isValidNumber (formatInt n) = true.
Proof.
  unfold formatInt. destruct n as [|p|p]; [done| |]; simpl;
    destruct (isValidNumber_uint (Pos.to_uint p) (to_uint_nzhead p)
                (DecimalPos.Unsigned.to_uint_nonnil p)) as [H1 H2].
  - unfold NilZero.string_of_uint. by destruct (Pos.to_uint p).
  - unfold NilZero.string_of_uint.
    by destruct (Pos.to_uint p).
Qed.

Section NumberTokens.

Variable FormatFloat : Decimal → option string.

(** The float encoder writes number literals only. *)
Hypothesis FormatFloat_valid : ∀ f s, FormatFloat f = Some s → isValidNumber s = true.

Lemma marshal_object_elem (m : gmap string value) (ms : list (string * json)) k jv :
  marshal_any FormatFloat (VObject m) = Some (JObject ms) → (k, jv) ∈ ms →
  ∃ k0 v, m !! k0 = Some v ∧ marshal_any FormatFloat v = Some jv.
Proof.
  simpl. destruct (sequence_members _) as [ms'|] eqn:Hms; simpl; [|done]. intros [= ->] Hin.
  apply sequence_members_Some in Hms.
  assert ((k, Some jv) ∈
            coerce_names (sort_members (map_to_list (marshal_any FormatFloat <$> m)))) as Hin'.
  { rewrite Hms. apply list_elem_of_fmap. by exists (k, jv). }
  apply list_elem_of_fmap in Hin' as ([k0 o] & [= _ <-] & Hin').
  unfold sort_members in Hin'. rewrite merge_sort_Permutation in Hin'.
  apply elem_of_map_to_list in Hin'. rewrite lookup_fmap in Hin'.
  destruct (m !! k0) as [v|] eqn:Hk0; [|done]. simpl in Hin'. injection Hin' as Hv.
  by exists k0, v.
Qed.

Lemma marshal_any_tokens_valid (v : value) (j : json) :
  marshal_any FormatFloat v = Some j → number_tokens_valid j = true.
Proof.
  revert j. induction v as [|s|n|n|f|b|m IH|l IH|n| | |] using value_ind';
    intros j Hj; try (simpl in Hj; injection Hj as <-; simpl; done || apply isValidNumber_formatInt).
  - simpl in Hj. destruct (FormatFloat f) as [s|] eqn:Hf; simpl in Hj; [|done].
    injection Hj as <-. simpl. by eapply FormatFloat_valid.
  - assert (∃ ms, j = JObject ms) as [ms ->].
    { simpl in Hj. destruct (sequence_members _); simpl in Hj; [|done].
      injection Hj as <-. by eexists. }
    simpl. apply forallb_forall. intros [k jv] Hin%list_elem_of_In. simpl.
    destruct (marshal_object_elem m ms k jv Hj Hin) as (k0 & v & Hk & Hv).
    by apply (IH k0 v Hk).
  - simpl in Hj. destruct (mapM _ l) as [js|] eqn:Hjs; simpl in Hj; [|done].
    injection Hj as <-. simpl. apply forallb_forall. intros jv Hin%list_elem_of_In.
    revert jv Hin. apply Forall_forall. apply mapM_Some in Hjs.
    by eapply Forall2_Forall_r.
  - done.
Qed.

Lemma marshal_omitempty_tokens_valid name v ps :
  marshal_omitempty FormatFloat name v = Some ps →
  forallb (λ kv, number_tokens_valid (snd kv)) ps = true.
Proof.
  intros [[_ ->]|(_ & jv & Hjv & ->)]%marshal_omitempty_shape; [done|].
  simpl. by rewrite (marshal_any_tokens_valid v jv Hjv).
Qed.

Lemma marshal_ResponseError_tokens_valid e je :
  marshal_ResponseError FormatFloat e = Some je → number_tokens_valid je = true.
Proof.
  unfold marshal_ResponseError.
  destruct (marshal_omitempty _ _ _) as [pd|] eqn:Hpd; simpl; [|done].
  intros [= <-]. cbn [number_tokens_valid forallb app snd].
  rewrite isValidNumber_formatInt. simpl.
  by eapply marshal_omitempty_tokens_valid.
Qed.

(** X15. Whenever the float encoder writes number literals only, every
    number token of an encoded message is a JSON number: identifiers are
    checked before they are written, and integers are written in decimal. *)
Theorem Marshal_number_tokens_valid (m : Message) (j : json) :
  Marshal FormatFloat m = Some j → number_tokens_valid j = true.
Proof.
  destruct m as [r|r|n]; simpl; intros H.
  - apply marshal_RequestMessage_shape in H as (jid & ps & Hjid & Hps & ->).
    apply marshal_Number_Some in Hjid as [-> Hv].
    cbn [number_tokens_valid forallb app snd].
    rewrite !andb_true_iff. repeat split; [exact Hv|].
    by eapply marshal_omitempty_tokens_valid.
  - apply marshal_ResponseMessage_shape in H as (jid & pr & pe & Hjid & Hpr & Hpe & ->).
    assert (number_tokens_valid jid = true) as Hid.
    { destruct (ResponseMessage.ID r) as [n|]; simpl in Hjid; [|by injection Hjid as <-].
      apply marshal_Number_Some in Hjid as [-> Hv]. exact Hv. }
    cbn [number_tokens_valid forallb app snd].
    rewrite forallb_app, !andb_true_iff.
    repeat split; [exact Hid|by eapply marshal_omitempty_tokens_valid|].
    apply marshal_omitempty_error_shape in Hpe as [[_ ->]|(e & je & _ & Hje & ->)]; [done|].
    cbn [number_tokens_valid forallb app snd]. rewrite andb_true_r.
    by eapply marshal_ResponseError_tokens_valid.
  - apply marshal_NotificationMessage_shape in H as (ps & Hps & ->).
    simpl. by eapply marshal_omitempty_tokens_valid.
Qed.

End NumberTokens.

(** ** What is decoded can be encoded *)

Lemma unmarshal_members_None {T} (set : T → string * json → option T)
    (ms : list (string * json)) :
  foldl (λ acc kv, t ← acc; set t kv) None ms = None.
Proof. induction ms; simpl; auto. Qed.

(** A property of the struct that every member keeps holds of the decoded
    struct. *)
Lemma unmarshal_members_inv {T} (set : T → string * json → option T) (Inv : T → Prop)
    (ms : list (string * json)) :
  (∀ t kv t', kv ∈ ms → Inv t → set t kv = Some t' → Inv t') →
  ∀ init t, Inv init → unmarshal_members set ms init = Some t → Inv t.
Proof.
  unfold unmarshal_members. induction ms as [|kv ms IH]; intros Hstep init t Hinit H.
  - by injection H as <-.
  - simpl in H. destruct (set init kv) as [t1|] eqn:Ht1.
    + apply (IH (λ t kv' t' Hin, Hstep t kv' t' (list_elem_of_further _ _ _ Hin)) t1 t); [|done].
      apply (Hstep init kv t1); [apply list_elem_of_here|done|done].
    + by rewrite unmarshal_members_None in H.
Qed.

Lemma field_of_elem (names : list string) (key f : string) :
  field_of names key = Some f → f ∈ names.
Proof.
  unfold field_of. destruct (find (String.eqb key) names) as [g|] eqn:Hg.
  - intros [= <-]. apply find_some in Hg as [Hg _]. by apply list_elem_of_In.
  - intros [Hf _]%find_some. by apply list_elem_of_In.
Qed.

Lemma members_tokens_valid (ms : list (string * json)) kv :
  number_tokens_valid (JObject ms) = true → kv ∈ ms → number_tokens_valid (snd kv) = true.
Proof.
  simpl. rewrite forallb_forall. intros H Hin%list_elem_of_In. by apply H.
Qed.

Lemma unmarshal_Number_encodable cur j n :
  ID_encodable cur = true → number_tokens_valid j = true →
  unmarshal_Number cur j = Some n → ID_encodable n = true.
Proof.
  unfold ID_encodable. destruct j; simpl; intros Hcur Hj H; try done.
  - by injection H as <-.
  - injection H as <-. by rewrite Hj, orb_true_r.
  - destruct (isValidNumber s) eqn:Hs; [|done]. injection H as <-. by rewrite Hs, orb_true_r.
Qed.

Section DecodedEncodable.

Variable FormatFloat : Decimal → option string.
Variable ParseFloat : string → option Decimal.

(** Every float read from a number token has a text: a number token is
    never read as NaN or as an infinity. *)
Hypothesis parsed_floats_have_text : ∀ s f, ParseFloat s = Some f → is_Some (FormatFloat f).

Lemma unmarshal_any_marshalable (j : json) (v : value) :
  unmarshal_any ParseFloat j = Some v → marshalable FormatFloat v = true.
Proof.
  revert v. induction j as [|b|s|s|l IH|ms IH] using json_ind'; simpl; intros v H.
  - by injection H as <-.
  - by injection H as <-.
  - destruct (ParseFloat s) as [f|] eqn:Hf; simpl in H; [|done]. injection H as <-.
    simpl. by destruct (parsed_floats_have_text s f Hf) as [t ->].
  - by injection H as <-.
  - destruct (mapM _ l) as [vs|] eqn:Hvs; simpl in H; [|done]. injection H as <-.
    simpl. apply forallb_forall. intros v Hv%list_elem_of_In. revert v Hv.
    apply Forall_forall. apply mapM_Some in Hvs.
    by eapply Forall2_Forall_r.
  - destruct (mapM _ ms) as [kvs|] eqn:Hkvs; simpl in H; [|done]. injection H as <-.
    simpl. apply map_forallb_Forall. intros k v Hk%object_of_members_lookup.
    apply mapM_Some in Hkvs.
    assert (Forall (λ kv, marshalable FormatFloat (snd kv) = true) kvs) as Hall.
    { eapply Forall2_Forall_r; [exact Hkvs|].
      eapply Forall_impl; [exact IH|]. simpl. intros [k' j'] Hj [k'' v''] Hv. simpl in *.
      destruct (unmarshal_any ParseFloat j') as [w|]; simpl in Hv; [|done].
      injection Hv as <- <-. by apply Hj. }
    rewrite Forall_forall in Hall. exact (Hall _ Hk).
Qed.

Lemma set_ResponseError_marshalable e kv e' :
  marshalable FormatFloat (ResponseError.Data e) = true →
  set_ResponseError ParseFloat e kv = Some e' →
  marshalable FormatFloat (ResponseError.Data e') = true.
Proof.
  destruct e as [c msg d], kv as [key j]. unfold set_ResponseError. simpl fst. simpl snd.
  intros Hd. destruct (field_of _ key) as [f|] eqn:Hf; [|by intros [= <-]].
  apply field_of_elem in Hf.
  repeat (apply elem_of_cons in Hf as [->|Hf]); [| | |by apply elem_of_nil in Hf]; simpl.
  - destruct (unmarshal_Integer c j); simpl; [|done]. by intros [= <-].
  - destruct (unmarshal_string msg j); simpl; [|done]. by intros [= <-].
  - destruct (unmarshal_any ParseFloat j) as [d'|] eqn:Hd'; simpl; [|done]. intros [= <-].
    simpl. by eapply unmarshal_any_marshalable.
Qed.

Lemma unmarshal_ResponseErrorPtr_marshalable cur j e :
  match cur with Some c => marshalable FormatFloat (ResponseError.Data c) | None => true end = true →
  unmarshal_ResponseErrorPtr ParseFloat cur j = Some e →
  match e with Some c => marshalable FormatFloat (ResponseError.Data c) | None => true end = true.
Proof.
  intros Hcur. destruct j; simpl; try done; [by intros [= <-]|].
  destruct (unmarshal_members _ members _) as [c|] eqn:Hc; simpl; [|done]. intros [= <-].
  eapply (unmarshal_members_inv (set_ResponseError ParseFloat)
            (λ c, marshalable FormatFloat (ResponseError.Data c) = true)); [| |exact Hc].
  - intros t kv t' _. apply set_ResponseError_marshalable.
  - by destruct cur.
Qed.

(** X16. Whatever is decoded can be encoded: when the number tokens of a
    document are JSON numbers and every float read from a token has a
    text, a message decoded from the document is never refused by the
    encoder. *)
Theorem Unmarshal_encodable (k : MessageKind) (j : json) (m : Message) :
  number_tokens_valid j = true →
  Unmarshal ParseFloat k j = Some m →
  encodable FormatFloat m = true.
Proof.
  intros Hj. destruct k; simpl;
    unfold unmarshal_RequestMessage, unmarshal_ResponseMessage,
      unmarshal_NotificationMessage, unmarshal_struct;
    (destruct (maxNestingDepth <? nesting_depth j); [done|]);
    (destruct j as [| | | | |ms]; simpl; try done; [by intros [= <-]|]);
    destruct (unmarshal_members _ ms _) as [r|] eqn:Hr; simpl; try done; intros [= <-];
    revert Hr.
  - apply (unmarshal_members_inv (set_RequestMessage ParseFloat)
             (λ r, encodable FormatFloat (Request r) = true)); [|done].
    intros [a id me p] [key jv] r' Hin%(members_tokens_valid _ _ Hj).
    simpl in Hin. simpl. intros [Hid Hp]%andb_true_iff.
    unfold set_RequestMessage. simpl fst. simpl snd.
    destruct (field_of _ key) as [f|] eqn:Hf; [|intros [= <-]; simpl; by rewrite Hid, Hp].
    apply field_of_elem in Hf.
    repeat (apply elem_of_cons in Hf as [->|Hf]); [| | | |by apply elem_of_nil in Hf]; simpl.
    + destruct (unmarshal_string _ jv); simpl; [|done]. intros [= <-]. simpl. by rewrite Hid, Hp.
    + destruct (unmarshal_Number id jv) as [n|] eqn:Hn; simpl; [|done]. intros [= <-]. simpl.
      by rewrite (unmarshal_Number_encodable id jv n Hid Hin Hn), Hp.
    + destruct (unmarshal_string _ jv); simpl; [|done]. intros [= <-]. simpl. by rewrite Hid, Hp.
    + destruct (unmarshal_any ParseFloat jv) as [p'|] eqn:Hp'; simpl; [|done]. intros [= <-].
      simpl. by rewrite Hid, (unmarshal_any_marshalable jv p' Hp').
  - apply (unmarshal_members_inv (set_ResponseMessage ParseFloat)
             (λ r, encodable FormatFloat (Response r) = true)); [|done].
    intros [a id res err] [key jv] r' Hin%(members_tokens_valid _ _ Hj).
    simpl in Hin. simpl. intros [[Hid Hres]%andb_true_iff Herr]%andb_true_iff.
    unfold set_ResponseMessage. simpl fst. simpl snd.
    destruct (field_of _ key) as [f|] eqn:Hf;
      [|intros [= <-]; simpl; by rewrite Hid, Hres, Herr].
    apply field_of_elem in Hf.
    repeat (apply elem_of_cons in Hf as [->|Hf]); [| | | |by apply elem_of_nil in Hf]; simpl.
    + destruct (unmarshal_string _ jv); simpl; [|done]. intros [= <-]. simpl.
      by rewrite Hid, Hres, Herr.
    + unfold unmarshal_NumberPtr.
      destruct jv; simpl; try done; try (intros [= <-]; simpl; by rewrite Hres, Herr).
      * intros [= <-]. simpl. unfold ID_encodable. simpl in Hin.
        by rewrite Hin, orb_true_r, Hres, Herr.
      * destruct (isValidNumber s) eqn:Hs; simpl; [|done]. intros [= <-]. simpl.
        unfold ID_encodable. by rewrite Hs, orb_true_r, Hres, Herr.
    + destruct (unmarshal_any ParseFloat jv) as [p'|] eqn:Hp'; simpl; [|done]. intros [= <-].
      simpl. by rewrite Hid, (unmarshal_any_marshalable jv p' Hp'), Herr.
    + destruct (unmarshal_ResponseErrorPtr ParseFloat err jv) as [e'|] eqn:He'; simpl; [|done].
      intros [= <-]. simpl.
      by rewrite Hid, Hres, (unmarshal_ResponseErrorPtr_marshalable err jv e' Herr He').
  - apply (unmarshal_members_inv (set_NotificationMessage ParseFloat)
             (λ r, encodable FormatFloat (Notification r) = true)); [|done].
    intros [a me p] [key jv] r' _. simpl. intros Hp.
    unfold set_NotificationMessage. simpl fst. simpl snd.
    destruct (field_of _ key) as [f|] eqn:Hf; [|by intros [= <-]].
    apply field_of_elem in Hf.
    repeat (apply elem_of_cons in Hf as [->|Hf]); [| | |by apply elem_of_nil in Hf]; simpl.
    + destruct (unmarshal_string _ jv); simpl; [|done]. by intros [= <-].
    + destruct (unmarshal_string _ jv); simpl; [|done]. by intros [= <-].
    + destruct (unmarshal_any ParseFloat jv) as [p'|] eqn:Hp'; simpl; [|done]. intros [= <-].
      simpl. by eapply unmarshal_any_marshalable.
Qed.

End DecodedEncodable.

(** ** The further properties on concrete inputs *)

Lemma FormatFloat_excerpt_valid f s :
  FormatFloat_excerpt f = Some s → isValidNumber s = true.
Proof.
  unfold FormatFloat_excerpt. repeat case_match; by intros [= <-].
Qed.

Lemma ParseFloat_excerpt_has_text s f :
  ParseFloat_excerpt s = Some f → is_Some (FormatFloat_excerpt f).
Proof.
  unfold ParseFloat_excerpt. repeat case_match; intros [= <-]; by eexists.
Qed.

Lemma unmarshal_any_StructuredValue_witness :
  unmarshal_any ParseFloat_excerpt (JArray [JNumber "5"; JObject [("k", JNull)]])
  = Some (VArray [VDecimal 0x4014000000000000; VObject {[ "k" := VNil ]}]) ∧
  StructuredValue (VArray [VDecimal 0x4014000000000000; VObject {[ "k" := VNil ]}]) = true ∧
  IsLSPAny (VArray [VDecimal 0x4014000000000000; VObject {[ "k" := VNil ]}]) = true.
Proof.
  split; [vm_compute; reflexivity|].
  apply (unmarshal_any_StructuredValue ParseFloat_excerpt
           (JArray [JNumber "5"; JObject [("k", JNull)]])).
  vm_compute; reflexivity.
Defined.

Lemma unmarshal_any_IsLSPArrayOrObject_witness :
  unmarshal_any ParseFloat_excerpt (JString "a") = Some (VString "a") ∧
  IsLSPArrayOrObject (VString "a") = is_container (JString "a").
Proof.
  split; [reflexivity|].
  apply (unmarshal_any_IsLSPArrayOrObject ParseFloat_excerpt). reflexivity.
Defined.

Lemma StructuredValue_marshal_any_witness :
  StructuredValue (VArray [VString "a"; VDecimal 0x7FF8000000000000]) = true ∧
  floats_have_text FormatFloat_excerpt (VArray [VString "a"; VDecimal 0x7FF8000000000000])
  = false ∧
  marshal_any FormatFloat_excerpt (VArray [VString "a"; VDecimal 0x7FF8000000000000]) = None.
Proof.
  split; [reflexivity|]. split; [reflexivity|].
  apply (proj2 (StructuredValue_marshal_any FormatFloat_excerpt
                  (VArray [VString "a"; VDecimal 0x7FF8000000000000]) eq_refl)).
  reflexivity.
Defined.

Lemma Marshal_is_Some_witness :
  encodable FormatFloat_excerpt
    (Request (RequestMessage.mk (mkAbstractMessage "2.0") "abc" "ping" VNil)) = false ∧
  ¬ is_Some (Marshal FormatFloat_excerpt
               (Request (RequestMessage.mk (mkAbstractMessage "2.0") "abc" "ping" VNil))).
Proof.
  split; [reflexivity|].
  intros H%(Marshal_is_Some FormatFloat_excerpt). discriminate H.
Defined.

Lemma Marshal_id_member_witness :
  ∃ j, Marshal FormatFloat_excerpt (Response ResponseMessage.zero) = Some j ∧
       member "id" j = Some JNull ∧
       (∀ s, member "id" j = Some (JNumber s) → isValidNumber s = true).
Proof.
  eexists. split; [vm_compute; reflexivity|].
  refine (Marshal_id_member FormatFloat_excerpt (Response ResponseMessage.zero) _ _).
  vm_compute; reflexivity.
Defined.

Lemma Request_identifier_written_witness :
  ∃ j, Marshal FormatFloat_excerpt (Request RequestMessage.zero) = Some j ∧
       Unmarshal ParseFloat_excerpt KRequest j
       = Some (Request (RequestMessage.mk (mkAbstractMessage "") "0" "" VNil)).
Proof.
  destruct (Request_identifier_written FormatFloat_excerpt ParseFloat_excerpt
              RequestMessage.zero) as (j & Hj & Hdec); try reflexivity.
  exists j. split; [exact Hj|].
  rewrite Hdec. vm_compute in Hj. injection Hj as <-. reflexivity.
Defined.

Lemma kinds_are_not_told_apart_witness :
  ∃ j, Marshal FormatFloat_excerpt progress_notification = Some j ∧
       Unmarshal ParseFloat_excerpt KRequest j
       = Some (Request (RequestMessage.mk (mkAbstractMessage "2.0") "" "$/progress"
                          (NotificationMessage.Params progress_record))).
Proof.
  destruct (proj1 (kinds_are_not_told_apart FormatFloat_excerpt ParseFloat_excerpt
                     progress_record RequestMessage.zero)) as (j & Hj & Hdec);
    [vm_compute; reflexivity|].
  exists j. split; [exact Hj|].
  rewrite Hdec. vm_compute in Hj. injection Hj as <-. vm_compute. reflexivity.
Defined.

Lemma unknown_member_is_skipped_witness :
  field_of (fields_of_kind KNotification) "id" = None ∧
  Unmarshal ParseFloat_excerpt KNotification
    (JObject ([("jsonrpc", JString "2.0")] ++ ("id", JNumber "1") :: [("method", JString "m")]))
  = Unmarshal ParseFloat_excerpt KNotification
      (JObject ([("jsonrpc", JString "2.0")] ++ [("method", JString "m")])).
Proof.
  split; [reflexivity|].
  apply (unknown_member_is_skipped ParseFloat_excerpt KNotification "id"); [reflexivity|].
  by vm_compute.
Defined.

Lemma error_code_bounds_witness :
  unmarshal_ResponseErrorPtr ParseFloat_excerpt None
    (JObject [("code", JNumber (formatInt (2^31))); ("message", JString "m")]) = None.
Proof. exact (proj1 (error_code_bounds ParseFloat_excerpt (2^31) "m")). Defined.

Lemma CancelParams_round_trip_witness :
  ∃ j, Marshal FormatFloat_excerpt ping_with_array = Some j ∧
  ∃ jc, marshal_CancelParams (CancelParams.mk "1") = Some jc ∧
        member_names jc = ["id"] ∧ member "id" jc = member "id" j ∧
        unmarshal_CancelParams jc = Some (CancelParams.mk "1").
Proof.
  eexists. split; [vm_compute; reflexivity|].
  refine (CancelParams_round_trip FormatFloat_excerpt
            (RequestMessage.mk (mkAbstractMessage "2.0") "1" "ping"
               (VArray [VString "a"; VBool true; VDecimal 0x3FF8000000000000])) _ _).
  vm_compute; reflexivity.
Defined.

Lemma ProgressParams_round_trip_witness :
  ∃ j, marshal_ProgressParams value (marshal_any FormatFloat_excerpt)
         (ProgressParams.mk "7" (VString "half")) = Some j ∧
       member_names j = ["token"; "value"] ∧
       unmarshal_ProgressParams value VNil (λ _, unmarshal_any ParseFloat_excerpt) j
       = Some (ProgressParams.mk "7" (VString "half")).
Proof.
  destruct (ProgressParams_round_trip value VNil (marshal_any FormatFloat_excerpt)
              (λ _, unmarshal_any ParseFloat_excerpt)
              (ProgressParams.mk "7" (VString "half")) (JString "half"))
    as (j & Hj & Hnames & Hdec); try reflexivity.
  exists j. split; [exact Hj|]. split; [exact Hnames|].
  rewrite Hdec. vm_compute in Hj. injection Hj as <-. reflexivity.
Defined.

Lemma marshal_object_members_witness :
  ∃ j, marshal_any FormatFloat_excerpt (VObject {[ "b" := VBool true; "a" := VNil ]}) = Some j ∧
       Sorted (λ a b, String.ltb a b = true) (member_names j) ∧
       (∀ k, member k j
             = ({[ "b" := VBool true; "a" := VNil ]} : gmap string value) !! k
               ≫= marshal_any FormatFloat_excerpt).
Proof.
  eexists. split; [vm_compute; reflexivity|].
  refine (marshal_object_members FormatFloat_excerpt {[ "b" := VBool true; "a" := VNil ]} _ _ _).
  - apply map_Forall_insert_2; [reflexivity|].
    apply map_Forall_insert_2; [reflexivity|]. apply map_Forall_empty.
  - vm_compute; reflexivity.
Defined.

Lemma Marshal_number_tokens_valid_witness :
  ∃ j, Marshal FormatFloat_excerpt ping_with_array = Some j ∧ number_tokens_valid j = true.
Proof.
  eexists. split; [vm_compute; reflexivity|].
  refine (Marshal_number_tokens_valid FormatFloat_excerpt FormatFloat_excerpt_valid
            ping_with_array _ _).
  vm_compute; reflexivity.
Defined.

Lemma Unmarshal_encodable_witness :
  number_tokens_valid (request_with_string_id "7") = true ∧
  Unmarshal ParseFloat_excerpt KRequest (request_with_string_id "7")
  = Some (Request (RequestMessage.mk (mkAbstractMessage "2.0") "7" "ping" VNil)) ∧
  encodable FormatFloat_excerpt
    (Request (RequestMessage.mk (mkAbstractMessage "2.0") "7" "ping" VNil)) = true.
Proof.
  split; [reflexivity|]. split; [reflexivity|].
  apply (Unmarshal_encodable FormatFloat_excerpt ParseFloat_excerpt ParseFloat_excerpt_has_text
           KRequest (request_with_string_id "7")); reflexivity.
Defined.
